(** * The client-side authentication session manager (app/stores/auth.ts)

    A shallow embedding of the Zustand auth store: the API client with its
    refresh interceptor ([createApiClient]), the session actions ([login],
    [loadUserProfile], [getProfile], [logout], [clearError], [setTokens]),
    the federated callback ([handleOidcCallback]) and the persistence
    middleware configuration ([partialize], the storage selection).

    Asynchronous functions are programs of a small free monad [Prog]: a
    synchronous effect is a [Do] node, an [await] on the network an [Await]
    node, a JavaScript exception a [Throw] leaf.  [run] executes a program to
    completion against a browser and a backend ([Env]); [start] executes it up
    to its first suspension, which is what a second caller observes while the
    first one is in flight.

    Only an [await] on the network is a point where a call is suspended
    and others may run; awaiting another action of the store is sequencing.

    What is left out: [console] output; the base URL in front of every
    path; the construction and the metadata cache of the OIDC user manager
    (only whether [getUserManager] returns one matters here; they are the
    subject of the module [Oidc] below); rehydration at start-up.  For
    [user], [null] and [undefined] are told apart, since JSON drops a field
    that is [undefined]; elsewhere both are [None].  The logout that the
    interceptor's callback starts without awaiting it is counted in the
    world and runs later, as [run_started_logout].

    Two libraries write to Web Storage and are modelled by what they
    write: Zustand's persist middleware, which stores the projection of the
    state after every [set] ([persist]), and oidc-client-ts, whose
    [signinRedirectCallback] removes the sign-in state and stores the user
    ([departs], [arrives]). *)

From stdpp Require Import gmap strings list fin_maps.
From Stdlib Require Import ZArith.

Open Scope string_scope.
Open Scope list_scope.

(** ** Data model *)

(** [interface User]; [id] is spelled [uid] here. *)
Record User := {
  uid : string;
  username : string;
  email : option string;
  webAllowed : option bool;
  isAdmin : option bool
}.

(** What [state.user] holds.  Its type is [User | null]; [loadUserProfile]
    stores [response.data.data] as it comes, and that is [undefined] when
    the response has no [data]. *)
Inductive UserValue :=
| undefined
| null
| present (u : User).

(** The data fields of [interface AuthState].  For [error], [null] is
    [None]. *)
Record AuthState := {
  user : UserValue;
  isAuthenticated : bool;
  isLoading : bool;
  error : option string
}.

(** [export const AUTH_ERRORS] *)
Module AUTH_ERRORS.
Definition UNAUTHORIZED : string := "Unauthorized".
Definition LOGIN_FAILED : string := "LoginFailed".
End AUTH_ERRORS.

(** The initial state returned by the store creator. *)
Definition initial_state : AuthState :=
  {| user := null; isAuthenticated := false; isLoading := false; error := None |}.

(** The argument of Zustand's [set]: an object literal holding some of the
    state's fields, one [Patch] per field written. *)
Inductive Patch :=
| user_is (u : UserValue)
| isAuthenticated_is (b : bool)
| isLoading_is (b : bool)
| error_is (e : option string).

Definition apply_patch (s : AuthState) (p : Patch) : AuthState :=
  match p with
  | user_is u =>
      {| user := u; isAuthenticated := isAuthenticated s;
         isLoading := isLoading s; error := error s |}
  | isAuthenticated_is b =>
      {| user := user s; isAuthenticated := b;
         isLoading := isLoading s; error := error s |}
  | isLoading_is b =>
      {| user := user s; isAuthenticated := isAuthenticated s;
         isLoading := b; error := error s |}
  | error_is e =>
      {| user := user s; isAuthenticated := isAuthenticated s;
         isLoading := isLoading s; error := e |}
  end.

(** Zustand merges the partial object into the current state. *)
Definition merge (s : AuthState) (partial : list Patch) : AuthState :=
  foldl apply_patch s partial.

(** *** JavaScript values that reach storage *)

Inductive JsVal :=
| VUndefined
| VNull
| VBool (b : bool)
| VUser (u : User).

Definition user_val (u : UserValue) : JsVal :=
  match u with
  | undefined => VUndefined
  | null => VNull
  | present u => VUser u
  end.

(** [partialize: (state) => ({ user: state.user, isAuthenticated: state.isAuthenticated })]
    An object is a finite map from field names to values; a field whose
    value is [undefined] is still a field of the object. *)
Definition partialize (state : AuthState) : gmap string JsVal :=
  {[ "user" := user_val (user state);
     "isAuthenticated" := VBool (isAuthenticated state) ]}.

(** [JSON.stringify] of an object leaves out the fields whose value is
    [undefined]; the result is given as the object that [JSON.parse] reads
    back. *)
Definition JSON_stringify (object : gmap string JsVal) : gmap string JsVal :=
  omap (fun value =>
          match value with
          | VUndefined => None
          | _ => Some value
          end) object.

(** The options given to [persist]. *)
Definition persist_name : string := "auth-storage".
Definition persist_version : Z := 1.

(** *** HTTP *)

Inductive Method := GET | POST.

Inductive Body :=
| NoBody
| Credentials (username password : string)     (* { username, password } *)
| Params (fields : gmap string string).        (* {} and requestParams *)

(** An Axios request config; [_retry] is the mark the interceptor leaves
    on a config it has already replayed ([undefined] is [false]). *)
Record RequestConfig := {
  method : Method;
  url : string;
  data : Body;
  _retry : bool
}.

Definition with_retry (config : RequestConfig) : RequestConfig :=
  {| method := method config; url := url config; data := data config;
     _retry := true |}.

(** [response.data] of the endpoints the store reads.  In [Profile], [data]
    is [undefined] when the object has no such field. *)
Inductive ResponseData :=
| Undefined                                           (* undefined or null *)
| Profile (data : UserValue)                          (* { data: User } *)
| Tokens (access_token refresh_token : option string) (* LoginResponse, OidcVerifyTokenResponse *)
| Empty.                                              (* anything else, e.g. {} or an empty body *)

Record Response := { status : Z; response_data : ResponseData }.

(** [error.response] of an AxiosError: the status and [data?.message]. *)
Record ErrorResponse := {
  err_status : Z;
  err_data_message : option string
}.

(** A thrown value: an [Error] with its message, and for an AxiosError the
    config of the request and the response when there was one. *)
Record JsError := {
  message : string;
  config : option RequestConfig;
  response : option ErrorResponse
}.

(** [new Error(msg)] *)
Definition Error (msg : string) : JsError :=
  {| message := msg; config := None; response := None |}.

(** What the wire gives back for a rejected request, before Axios attaches
    the request's config to the error it raises ([has_config] is false for
    the rare rejection that carries none). *)
Record Rejection := {
  rej_message : string;
  rej_has_config : bool;
  rej_response : option ErrorResponse
}.

Definition axios_error (r : Rejection) (sent : RequestConfig) : JsError :=
  {| message := rej_message r;
     config := if rej_has_config r then Some sent else None;
     response := rej_response r |}.

(** *** The external identity provider *)

(** The fields of oidc-client-ts's [User] that the callback writes or reads. *)
Record OidcUser := {
  id_token : option string;
  oidc_access_token : string;
  token_type : string;
  scope : option string;
  profile : gmap string string;
  expires_at : option Z;
  oidc_state : option string
}.

(** What a Web Storage slot holds: the JSON text the persist middleware
    writes, [{state: ..., version: ...}]; the user that oidc-client-ts keeps
    ([user.toStorageString()]); or some other string. *)
Inductive Item :=
| Persisted (state : gmap string JsVal) (version : Z)
| StoredUser (user : OidcUser)
| Raw (text : string).

(** The value [handleOidcCallback] resolves to. *)
Record CallbackResult := {
  cb_user : OidcUser;
  cb_access_token : option string;
  cb_refresh_token : option string
}.

(** ** The world the store runs in *)

(** A call that left the client. *)
Inductive NetCall :=
| Http (m : Method) (path : string) (body : Body)
| IdpExchange.                       (* manager.signinRedirectCallback() *)

Definition wire (config : RequestConfig) : NetCall :=
  Http (method config) (url config) (data config).

(** The browser and the remote parties.  The backend and the identity
    provider answer as a function of everything sent so far. *)
Record Env := {
  has_window : bool;                       (* typeof window !== 'undefined' *)
  localStorage_works : bool;               (* the '__test' probe does not throw *)
  search : list (string * string);         (* window.location.search *)
  oidc_authority : string;                 (* appConfig.oidcAuth.config.authority *)
  oidc_client_id : string;                 (* appConfig.oidcAuth.config.client_id *)
  http : list NetCall -> NetCall -> Rejection + Response;
  idp : list NetCall -> JsError + OidcUser
}.

(** Mutable state: the store, the module-level [isProcessingCallback],
    both Web Storages, the calls made so far, and the logouts that the
    interceptor has started without awaiting them. *)
Record World := {
  store : AuthState;
  isProcessingCallback : bool;
  localStorage : gmap string Item;
  sessionStorage : gmap string Item;
  network : list NetCall;
  logouts_started : nat
}.

Definition with_store (s : AuthState) (w : World) : World :=
  {| store := s; isProcessingCallback := isProcessingCallback w;
     localStorage := localStorage w; sessionStorage := sessionStorage w;
     network := network w; logouts_started := logouts_started w |}.

Definition with_flag (b : bool) (w : World) : World :=
  {| store := store w; isProcessingCallback := b;
     localStorage := localStorage w; sessionStorage := sessionStorage w;
     network := network w; logouts_started := logouts_started w |}.

Definition with_localStorage (m : gmap string Item) (w : World) : World :=
  {| store := store w; isProcessingCallback := isProcessingCallback w;
     localStorage := m; sessionStorage := sessionStorage w;
     network := network w; logouts_started := logouts_started w |}.

Definition with_sessionStorage (m : gmap string Item) (w : World) : World :=
  {| store := store w; isProcessingCallback := isProcessingCallback w;
     localStorage := localStorage w; sessionStorage := m;
     network := network w; logouts_started := logouts_started w |}.

Definition sent (c : NetCall) (w : World) : World :=
  {| store := store w; isProcessingCallback := isProcessingCallback w;
     localStorage := localStorage w; sessionStorage := sessionStorage w;
     network := network w ++ [c]; logouts_started := logouts_started w |}.

Definition logout_started (w : World) : World :=
  {| store := store w; isProcessingCallback := isProcessingCallback w;
     localStorage := localStorage w; sessionStorage := sessionStorage w;
     network := network w; logouts_started := S (logouts_started w) |}.

(** [createJSONStorage(() => ...)]: no storage without a window,
    [localStorage] when the probe succeeds, [sessionStorage] otherwise. *)
Inductive Backing := NoStorage | Local | Session.

Definition storage (env : Env) : Backing :=
  if negb (has_window env) then NoStorage
  else if localStorage_works env then Local
  else Session.

(** The persist middleware: every [set] is followed by a write of
    [JSON.stringify({state: partialize(get()), version})] under [name]. *)
Definition persist (env : Env) (w : World) : World :=
  let item :=
    Persisted (JSON_stringify (partialize (store w))) persist_version in
  match storage env with
  | NoStorage => w
  | Local => with_localStorage (<[persist_name := item]> (localStorage w)) w
  | Session => with_sessionStorage (<[persist_name := item]> (sessionStorage w)) w
  end.

(** The projection currently kept by the storage the store persists to. *)
Definition persisted (env : Env) (w : World) : option Item :=
  match storage env with
  | NoStorage => None
  | Local => localStorage w !! persist_name
  | Session => sessionStorage w !! persist_name
  end.

(** [new URLSearchParams(window.location.search).get(name)] *)
Fixpoint urlParams_get (params : list (string * string)) (name : string)
  : option string :=
  match params with
  | [] => None
  | (k, v) :: rest => if String.eqb k name then Some v else urlParams_get rest name
  end.

(** [appConfig.oidcAuth.enabled] *)
Definition oidcAuth_enabled : bool := true.

(** ** Programs *)

(** Synchronous effects. *)
Inductive Cmd : Type -> Type :=
| Get : Cmd AuthState                               (* get() *)
| Set_ (partial : list Patch) : Cmd unit             (* set({...}) *)
| ReadProcessing : Cmd bool                          (* isProcessingCallback *)
| WriteProcessing (b : bool) : Cmd unit              (* isProcessingCallback = b *)
| Window : Cmd bool                                  (* typeof window !== 'undefined' *)
| SearchParam (name : string) : Cmd (option string)  (* urlParams.get(name) *)
| SessionRemove (key : string) : Cmd unit            (* sessionStorage.removeItem(key) *)
| StartLogout : Cmd unit.                            (* get().logout().catch(console.error) *)

(** Calls that are awaited over the network. *)
Inductive Net : Type -> Type :=
| Send (config : RequestConfig) : Net (Rejection + Response)
| SigninRedirectCallback : Net (JsError + OidcUser).

Inductive Prog (A : Type) : Type :=
| Ret (a : A)
| Throw (e : JsError)
| Do {X : Type} (c : Cmd X) (k : X -> Prog A)
| Await {X : Type} (c : Net X) (k : X -> Prog A).

Arguments Ret {A} a.
Arguments Throw {A} e.
Arguments Do {A X} c k.
Arguments Await {A X} c k.

Fixpoint bind {A B} (p : Prog A) (f : A -> Prog B) : Prog B :=
  match p with
  | Ret a => f a
  | Throw e => Throw e
  | Do c k => Do c (fun x => bind (k x) f)
  | Await c k => Await c (fun x => bind (k x) f)
  end.

Declare Scope prog_scope.
Delimit Scope prog_scope with prog.
Bind Scope prog_scope with Prog.
Notation "x ← y ; z" := (bind y (fun x => z))
  (at level 20, y at level 100, z at level 200, only parsing) : prog_scope.
Notation "' x ← y ; z" := (bind y (fun x => z))
  (at level 20, x pattern, y at level 100, z at level 200, only parsing) : prog_scope.
Notation "x ;; z" := (bind x (fun _ => z))
  (at level 100, z at level 200, only parsing, right associativity) : prog_scope.
Open Scope prog_scope.

(** [try { p } catch (e) { handler e }] *)
Fixpoint try_catch {A} (p : Prog A) (handler : JsError -> Prog A) : Prog A :=
  match p with
  | Ret a => Ret a
  | Throw e => handler e
  | Do c k => Do c (fun x => try_catch (k x) handler)
  | Await c k => Await c (fun x => try_catch (k x) handler)
  end.

(** [try { p } finally { cleanup }] *)
Fixpoint finally {A} (p : Prog A) (cleanup : Prog unit) : Prog A :=
  match p with
  | Ret a => bind cleanup (fun _ => Ret a)
  | Throw e => bind cleanup (fun _ => Throw e)
  | Do c k => Do c (fun x => finally (k x) cleanup)
  | Await c k => Await c (fun x => finally (k x) cleanup)
  end.

Definition do {X} (c : Cmd X) : Prog X := Do c Ret.
Definition await {X} (c : Net X) : Prog X := Await c Ret.

(** How a call settles: an async function's promise is fulfilled with a
    value or rejected with the value thrown. *)
Inductive Completion (A : Type) :=
| Returned (a : A)
| Thrown (e : JsError).

Arguments Returned {A} a.
Arguments Thrown {A} e.

(** *** Semantics *)

Definition exec {X} (c : Cmd X) (env : Env) (w : World) : X * World :=
  match c in Cmd X return X * World with
  | Get => (store w, w)
  | Set_ partial => (tt, persist env (with_store (merge (store w) partial) w))
  | ReadProcessing => (isProcessingCallback w, w)
  | WriteProcessing b => (tt, with_flag b w)
  | Window => (has_window env, w)
  | SearchParam name => (urlParams_get (search env) name, w)
  | SessionRemove key => (tt, with_sessionStorage (delete key (sessionStorage w)) w)
  | StartLogout => (tt, logout_started w)
  end.

(** The call as it appears on the wire. *)
Definition call {X} (c : Net X) : NetCall :=
  match c with
  | Send config => wire config
  | SigninRedirectCallback => IdpExchange
  end.

(** The answer of the remote party to a call, given what was sent before. *)
Definition answer {X} (c : Net X) (env : Env) (before : list NetCall) : X :=
  match c in Net X return X with
  | Send config => http env before (wire config)
  | SigninRedirectCallback => idp env before
  end.

(** *** What oidc-client-ts keeps in storage

    The library has entries of its own in [localStorage], under the prefix
    ['oidc.']: the state of a sign-in it has started, under the [state]
    value that comes back in the callback URL (its state store is
    [localStorage] by default), and the signed-in user, under
    ['user:<authority>:<client_id>'] ([userStore] is
    [window.localStorage] in [getOidcConfig]). *)
Definition oidc_state_key (state : string) : string := "oidc." +:+ state.

Definition oidc_user_key (env : Env) : string :=
  "oidc.user:" +:+ oidc_authority env +:+ ":" +:+ oidc_client_id env.

(** What an awaited call does in the browser before its request leaves:
    [signinRedirectCallback] takes the sign-in state named by the URL out of
    storage. *)
Definition departs {X} (c : Net X) (env : Env) (w : World) : World :=
  match c with
  | Send _ => w
  | SigninRedirectCallback =>
      if has_window env then
        match urlParams_get (search env) "state" with
        | Some state =>
            if String.eqb state "" then w
            else with_localStorage
                   (delete (oidc_state_key state) (localStorage w)) w
        | None => w
        end
      else w
  end.

(** What it does when the answer has come: [signinRedirectCallback] stores
    the user it resolves to. *)
Definition arrives {X} (c : Net X) (env : Env) : X -> World -> World :=
  match c in Net X return X -> World -> World with
  | Send _ => fun _ w => w
  | SigninRedirectCallback => fun r w =>
      match r with
      | inr user =>
          if has_window env then
            with_localStorage
              (<[oidc_user_key env := StoredUser user]> (localStorage w)) w
          else w
      | inl _ => w
      end
  end.

(** What the rest of the page sees while the request of a suspended call is
    in flight. *)
Definition in_flight {X} (c : Net X) (env : Env) (w : World) : World :=
  sent (call c) (departs c env w).

(** Run to completion: every awaited call is sent and answered in turn. *)
Fixpoint run {A} (p : Prog A) (env : Env) (w : World) : Completion A * World :=
  match p with
  | Ret a => (Returned a, w)
  | Throw e => (Thrown e, w)
  | Do c k => let '(x, w') := exec c env w in run (k x) env w'
  | Await c k =>
      let x := answer c env (network w) in
      run (k x) env (arrives c env x (in_flight c env w))
  end.

(** A call observed by the rest of the page: settled without ever
    suspending, or suspended on a request, in the world [w] in which the
    request is made. *)
Inductive Task (A : Type) :=
| Settled (r : Completion A) (w : World)
| Suspended {X : Type} (c : Net X) (k : X -> Prog A) (w : World).

Arguments Settled {A} r w.
Arguments Suspended {A X} c k w.

(** Run the synchronous prefix, up to the first [await] on the network. *)
Fixpoint start {A} (p : Prog A) (env : Env) (w : World) : Task A :=
  match p with
  | Ret a => Settled (Returned a) w
  | Throw e => Settled (Thrown e) w
  | Do c k => let '(x, w') := exec c env w in start (k x) env w'
  | Await c k => Suspended c k w
  end.

(** The suspended call continues when its request is answered with [x]. *)
Definition resume {A X} (c : Net X) (k : X -> Prog A) (x : X)
    (env : Env) (w : World) : Completion A * World :=
  run (k x) env (arrives c env x w).

(** ** JavaScript idioms *)

(** Truthiness of a [string | null | undefined]: present and not empty. *)
Definition truthy (s : option string) : bool :=
  match s with
  | Some s => negb (String.eqb s "")
  | None => false
  end.

(** [a || b] on such values. *)
Definition or_else (a : option string) (b : string) : string :=
  match a with
  | Some s => if String.eqb s "" then b else s
  | None => b
  end.

(** [haystack.includes(needle)] *)
Fixpoint includes (haystack needle : string) : bool :=
  String.prefix needle haystack ||
  match haystack with
  | EmptyString => false
  | String _ rest => includes rest needle
  end.

(** [error.response?.status === code] *)
Definition status_is (error : JsError) (code : Z) : bool :=
  match response error with
  | Some r => Z.eqb (err_status r) code
  | None => false
  end.

(** [error.response?.data?.message] *)
Definition response_message (error : JsError) : option string :=
  match response error with
  | Some r => err_data_message r
  | None => None
  end.

(** Reading a property of [undefined]. *)
Definition TypeError : JsError :=
  Error "Cannot read properties of undefined".

(** [response.data.data] *)
Definition data_data (response : Response) : Prog UserValue :=
  match response_data response with
  | Undefined => Throw TypeError
  | Profile u => Ret u
  | Tokens _ _ | Empty => Ret undefined
  end.

(** [data.access_token] and [data.refresh_token] *)
Definition data_tokens (response : Response)
  : Prog (option string * option string) :=
  match response_data response with
  | Undefined => Throw TypeError
  | Tokens a r => Ret (a, r)
  | Profile _ | Empty => Ret (None, None)
  end.

(** ** The API client and its refresh interceptor *)

(** [axios.post(`${API_URL}/auth/refresh`, {}, { withCredentials: true })]
    The base URL is left out of every path. *)
Definition refresh_config : RequestConfig :=
  {| method := POST; url := "/auth/refresh"; data := Params ∅; _retry := false |}.

(** Thrown where the nesting bound of [client_upto] is exceeded;
    [client_nesting] shows that [createApiClient] never gets there. *)
Definition too_much_recursion : JsError := Error "too much recursion".

(** The rejection handler given to [client.interceptors.response.use];
    [client] is the instance the handler closes over. *)
Definition onRejected (client : RequestConfig -> Prog Response)
    (onAuthFailed : Prog unit) (error : JsError) : Prog Response :=
  match config error with
  | None => Throw error
  | Some originalRequest =>
      if status_is error 401 && negb (_retry originalRequest) then
        let originalRequest := with_retry originalRequest in
        r ← await (Send refresh_config);
        match r with
        | inr _ => client originalRequest
        | inl refreshError =>
            onAuthFailed;;
            Throw (axios_error refreshError refresh_config)
        end
      else Throw error
  end.

(** A request through the instance: the adapter's answer goes through the
    response interceptor.  A replay re-enters the instance; [depth] bounds
    how many replays may nest. *)
Fixpoint client_upto (depth : nat) (onAuthFailed : Prog unit)
    (config : RequestConfig) : Prog Response :=
  r ← await (Send config);
  match r with
  | inr response => Ret response
  | inl rejection =>
      onRejected
        (match depth with
         | O => fun _ => Throw too_much_recursion
         | S depth => client_upto depth onAuthFailed
         end)
        onAuthFailed (axios_error rejection config)
  end.

(** [createApiClient(onAuthFailed)] *)
Definition createApiClient (onAuthFailed : Prog unit)
  : RequestConfig -> Prog Response :=
  client_upto 1 onAuthFailed.

(** ** The store *)

(** [createApiClient(() => { get().logout().catch(console.error) })] *)
Definition api : RequestConfig -> Prog Response :=
  createApiClient (do StartLogout).

Definition api_post (path : string) (body : Body) : Prog Response :=
  api {| method := POST; url := path; data := body; _retry := false |}.

Definition api_get (path : string) : Prog Response :=
  api {| method := GET; url := path; data := NoBody; _retry := false |}.

Definition set (partial : list Patch) : Prog unit := do (Set_ partial).

Definition loadUserProfile : Prog UserValue :=
  try_catch
    (response ← api_get "/auth/me/info";
     user ← data_data response;
     set [user_is user];;
     Ret user)
    (fun _ => Ret null).

(** [!user || user.webAllowed === false] *)
Definition no_web_access (user : UserValue) : bool :=
  match user with
  | undefined | null => true
  | present u => match webAllowed u with Some false => true | _ => false end
  end.

Definition login (username password : string) : Prog bool :=
  set [isLoading_is true; error_is None];;
  try_catch
    (api_post "/auth/login" (Credentials username password);;
     user ← loadUserProfile;
     if no_web_access user then
       set [isAuthenticated_is false; isLoading_is false;
            error_is (Some AUTH_ERRORS.UNAUTHORIZED); user_is null];;
       Ret false
     else
       set [isAuthenticated_is true; isLoading_is false; error_is None];;
       Ret true)
    (fun error =>
       set [isLoading_is false;
            error_is (Some (or_else (response_message error) AUTH_ERRORS.LOGIN_FAILED));
            isAuthenticated_is false];;
       Ret false).

Definition getProfile : Prog UserValue :=
  try_catch
    (response ← api_get "/auth/me/info";
     user ← data_data response;
     match user with
     | present _ =>
         set [isAuthenticated_is true; user_is user; error_is None];;
         Ret user
     | undefined | null =>
         set [isAuthenticated_is false; user_is null];;
         Ret null
     end)
    (fun _ =>
       set [isAuthenticated_is false; user_is null];;
       Ret null).

Definition logout : Prog unit :=
  try_catch
    (api_post "/auth/logout" (Params ∅);; Ret tt)
    (fun _ => Ret tt);;
  set [user_is null; isAuthenticated_is false; error_is None];;
  window ← do Window;
  if window then
    do (SessionRemove "router-last-location");;
    do (SessionRemove "auth-storage")
  else Ret tt.

Definition clearError : Prog unit := set [error_is None].

Definition setTokens (accessToken refreshToken : string) : Prog unit :=
  set [isAuthenticated_is true].

(** [getUserManager() !== null] *)
Definition getUserManager : Prog bool :=
  window ← do Window;
  if negb window then Ret false
  else if negb oidcAuth_enabled then Ret false
  else Ret true.

Definition isOidcEnabled : Prog bool :=
  window ← do Window;
  Ret (oidcAuth_enabled && window).

(** The messages of the errors [handleOidcCallback] raises itself. *)
Definition not_enabled : string := "OIDC authentication is not enabled".
Definition already_processing : string := "OIDC callback is already being processed".
Definition missing_code_or_state : string :=
  "Invalid authorization response. Missing code or state parameter.".

(** The minimal user object built from the authorization code. *)
Definition fallback_user (code state : string) : OidcUser :=
  {| id_token := Some "";
     oidc_access_token := code;
     token_type := "Bearer";
     scope := Some "openid profile email";
     profile := ∅;
     expires_at := Some 0%Z;
     oidc_state := Some state |}.

(** The body of the verification request. *)
Definition requestParams (user : OidcUser) (code state : option string)
  : gmap string string :=
  let params : gmap string string := {[ "access_token" := oidc_access_token user ]} in
  let params :=
    if truthy (id_token user)
    then <["id_token" := default "" (id_token user)]> params
    else params in
  if negb (truthy (id_token user)) && truthy code
  then <["state" := or_else state ""]> (<["code" := default "" code]> params)
  else params.

(** [manager.signinRedirectCallback()], with the fallback of the [catch]
    around it. *)
Definition signin_or_fallback (code state : option string) : Prog OidcUser :=
  try_catch
    (r ← await SigninRedirectCallback;
     match r with inr user => Ret user | inl e => Throw e end)
    (fun tokenError =>
       if truthy (Some (message tokenError))
          && includes (message tokenError) "Invalid token"
       then Ret (fallback_user (default "" code) (default "" state))
       else Throw tokenError).

(** The statements of the outer [try] block. *)
Definition callback_try_block : Prog CallbackResult :=
  code ← do (SearchParam "code");
  state ← do (SearchParam "state");
  if negb (truthy code) || negb (truthy state)
  then Throw (Error missing_code_or_state) else
  user ← signin_or_fallback code state;
  response ← api_post "/auth/openid/verify-token"
               (Params (requestParams user code state));
  '(access, refresh) ← data_tokens response;
  Ret {| cb_user := user; cb_access_token := access;
         cb_refresh_token := refresh |}.

Definition handleOidcCallback : Prog CallbackResult :=
  manager ← getUserManager;
  if negb manager then Throw (Error not_enabled) else
  processing ← do ReadProcessing;
  if processing then Throw (Error already_processing) else
  do (WriteProcessing true);;
  finally
    (try_catch callback_try_block (fun error => Throw error))
    (do (WriteProcessing false)).

(** ** Sample browsers and backends

    Concrete inputs on which the properties below are exercised. *)

Module Sample.

Definition ok (d : ResponseData) : Rejection + Response :=
  inr {| status := 200; response_data := d |}.

Definition rejected (code : Z) (msg : option string) : Rejection + Response :=
  inl {| rej_message := "Request failed with status code";
         rej_has_config := true;
         rej_response := Some {| err_status := code; err_data_message := msg |} |}.

Definition u0 : User :=
  {| uid := "1"; username := "u0"; email := None;
     webAllowed := Some true; isAdmin := None |}.

(** A user the server authenticates but who may not use the web client. *)
Definition guest : User :=
  {| uid := "2"; username := "guest"; email := None;
     webAllowed := Some false; isAdmin := None |}.

Definition external_user : OidcUser :=
  {| id_token := Some "eyJ.id"; oidc_access_token := "eyJ.access";
     token_type := "Bearer"; scope := Some "openid profile email offline_access";
     profile := ∅; expires_at := Some 3600%Z; oidc_state := None |}.

Definition callback_url : list (string * string) :=
  [("code", "abc"); ("state", "xyz")].

(** [posts path c]: the call is a POST to [path]. *)
Definition posts (path : string) (c : NetCall) : bool :=
  match c with
  | Http POST p _ => String.eqb p path
  | _ => false
  end.

Definition gets (path : string) (c : NetCall) : bool :=
  match c with
  | Http GET p _ => String.eqb p path
  | _ => false
  end.

(** A browser tab on the callback URL, in front of a backend that serves
    [who] and an identity provider that answers with [exchange]. *)
Definition browser (who : User) (exchange : JsError + OidcUser) : Env :=
  {| has_window := true;
     localStorage_works := true;
     search := callback_url;
     oidc_authority := "https://idp.example.org";
     oidc_client_id := "link-client";
     http := fun _ c =>
       if gets "/auth/me/info" c then ok (Profile (present who))
       else if posts "/auth/openid/verify-token" c || posts "/auth/login" c
       then ok (Tokens (Some "app-access") (Some "app-refresh"))
       else ok Empty;
     idp := fun _ => exchange |}.

(** The access cookie has expired: every request is answered 401 until a
    refresh call has been made, and the refresh call succeeds only if
    [refresh_ok]. *)
Definition expired (refresh_ok : bool) : Env :=
  {| has_window := true;
     localStorage_works := true;
     search := [];
     oidc_authority := "https://idp.example.org";
     oidc_client_id := "link-client";
     http := fun before c =>
       if posts "/auth/refresh" c then
         if refresh_ok then ok Empty else rejected 403 (Some "refresh denied")
       else if refresh_ok && existsb (posts "/auth/refresh") before
       then ok (Profile (present u0))
       else rejected 401 (Some "token expired");
     idp := fun _ => inl (Error "network error") |}.

(** A backend that rejects the password. *)
Definition wrong_password : Env :=
  {| has_window := true;
     localStorage_works := true;
     search := [];
     oidc_authority := "https://idp.example.org";
     oidc_client_id := "link-client";
     http := fun _ _ => rejected 400 (Some "Invalid username or password");
     idp := fun _ => inl (Error "network error") |}.

(** A backend that is down, seen from a tab whose [localStorage] is
    blocked. *)
Definition offline : Env :=
  {| has_window := true;
     localStorage_works := false;
     search := [("state", "xyz")];
     oidc_authority := "https://idp.example.org";
     oidc_client_id := "link-client";
     http := fun _ _ =>
       inl {| rej_message := "Network Error"; rej_has_config := true;
              rej_response := None |};
     idp := fun _ => inl (Error "Network Error") |}.

(** A freshly created store in an empty browser profile. *)
Definition fresh : World :=
  {| store := initial_state; isProcessingCallback := false;
     localStorage := ∅; sessionStorage := ∅;
     network := []; logouts_started := 0 |}.

(** The store of a tab in which [u0] is signed in. *)
Definition signed_in : World :=
  {| store := {| user := present u0; isAuthenticated := true;
                 isLoading := false; error := None |};
     isProcessingCallback := false;
     localStorage := ∅; sessionStorage := ∅;
     network := []; logouts_started := 0 |}.

(** The tab while a callback is being resolved. *)
Definition resolving : World :=
  {| store := initial_state; isProcessingCallback := true;
     localStorage := ∅; sessionStorage := ∅;
     network := [IdpExchange]; logouts_started := 0 |}.

Definition me_info : RequestConfig :=
  {| method := GET; url := "/auth/me/info"; data := NoBody; _retry := false |}.

End Sample.

(** ** Notions used in the statements *)

(** [isAuthenticated == true] implies that [user] is present and that
    [user.webAllowed != false]. *)
Definition session_invariant (s : AuthState) : Prop :=
  isAuthenticated s = true ->
  exists u, user s = present u /\ webAllowed u <> Some false.

(** The part of the world a request through the API client leaves alone:
    the session, the callback flag and both storages. *)
Definition same_session (w w' : World) : Prop :=
  store w' = store w
  /\ isProcessingCallback w' = isProcessingCallback w
  /\ localStorage w' = localStorage w
  /\ sessionStorage w' = sessionStorage w.

(** The world once the exchange with the identity provider, begun in [w],
    has been answered. *)
Definition exchanged (env : Env) (w : World) : World :=
  arrives SigninRedirectCallback env (idp env (network w))
    (in_flight SigninRedirectCallback env w).

(** The call that verifies [user] with the application server. *)
Definition verify_token (user : OidcUser) (code state : option string)
  : NetCall :=
  Http POST "/auth/openid/verify-token" (Params (requestParams user code state)).

(** A program that never assigns [isProcessingCallback]. *)
Definition assigns_processing {X} (c : Cmd X) : bool :=
  match c with
  | WriteProcessing _ => true
  | _ => false
  end.

Fixpoint leaves_processing {A} (p : Prog A) : Prop :=
  match p with
  | Ret _ | Throw _ => True
  | Do c k => assigns_processing c = false /\ forall x, leaves_processing (k x)
  | Await c k => forall x, leaves_processing (k x)
  end.

(** The worlds in which the successive requests of a call are in flight,
    when every request is answered by [env]. *)
Fixpoint suspensions {A} (p : Prog A) (env : Env) (w : World) : list World :=
  match p with
  | Ret _ | Throw _ => []
  | Do c k => let '(x, w') := exec c env w in suspensions (k x) env w'
  | Await c k =>
      let x := answer c env (network w) in
      in_flight c env w
      :: suspensions (k x) env (arrives c env x (in_flight c env w))
  end.

(** [login] has set [isLoading] and cleared [error], and is about to send
    the credentials. *)
Definition login_begun (env : Env) (w : World) : World :=
  (run (set [isLoading_is true; error_is None]) env w).2.

(** The two [sessionStorage.removeItem] calls of [logout]. *)
Definition session_keys_removed (w : World) : World :=
  with_sessionStorage
    (delete "auth-storage" (delete "router-last-location" (sessionStorage w)))
    w.

(** The projection of a session without user. *)
Definition signed_out_projection : Item :=
  Persisted {[ "user" := VNull; "isAuthenticated" := VBool false ]} 1.

(** The storage the store persists to holds nothing under the store's
    name, or the projection of the current state. *)
Definition in_sync (env : Env) (w : World) : Prop :=
  persisted env w = None
  \/ persisted env w
     = Some (Persisted (JSON_stringify (partialize (store w))) persist_version).

(** The request is answered 401, by a rejection that carries its config,
    it has not been replayed yet, and the refresh call that the interceptor
    then makes is rejected. *)
Definition refresh_fails (env : Env) (w : World) (config : RequestConfig)
  : bool :=
  match http env (network w) (wire config) with
  | inl rejection =>
      rej_has_config rejection
      && status_is (axios_error rejection config) 401
      && negb (_retry config)
      && match http env (network w ++ [wire config]) (wire refresh_config) with
         | inl _ => true
         | inr _ => false
         end
  | inr _ => false
  end.

(** The logout that the interceptor started runs when its turn comes. *)
Definition run_started_logout (env : Env) (w : World) : World :=
  match logouts_started w with
  | O => w
  | S n =>
      (run logout env
         {| store := store w; isProcessingCallback := isProcessingCallback w;
            localStorage := localStorage w; sessionStorage := sessionStorage w;
            network := network w; logouts_started := n |}).2
  end.

(** ** More notions used in the statements *)

(** A program that never calls [set] and never removes an item of
    [sessionStorage]. *)
Definition writes_session {X} (c : Cmd X) : bool :=
  match c with
  | Set_ _ | SessionRemove _ => true
  | _ => false
  end.

Fixpoint leaves_session {A} (p : Prog A) : Prop :=
  match p with
  | Ret _ | Throw _ => True
  | Do c k => writes_session c = false /\ forall x, leaves_session (k x)
  | Await c k => forall x, leaves_session (k x)
  end.

(** The keys of the entries that oidc-client-ts keeps. *)
Definition oidc_entry (key : string) : bool := String.prefix "oidc." key.

(** What is the store's own is as before: its state, [sessionStorage], and
    every entry of [localStorage] that is not one of the library's. *)
Definition session_untouched (w w' : World) : Prop :=
  store w' = store w
  /\ sessionStorage w' = sessionStorage w
  /\ forall key, oidc_entry key = false ->
       localStorage w' !! key = localStorage w !! key.

(** A backend for which the session is gone for good: the logout request
    is answered 401 and the refresh call is rejected, whatever was sent
    before. *)
Definition session_gone (env : Env) : Prop :=
  forall before,
    (exists rejection,
       http env before (Http POST "/auth/logout" (Params ∅)) = inl rejection
       /\ rej_has_config rejection = true
       /\ exists r, rej_response rejection = Some r /\ err_status r = 401%Z)
    /\ (exists rejection,
          http env before (wire refresh_config) = inl rejection).

(** More sample backends. *)
Module Scenario.

(** The backend accepts the credentials, then fails on every other
    request with a 500. *)
Definition profile_down : Env :=
  {| has_window := true;
     localStorage_works := true;
     search := [];
     oidc_authority := "https://idp.example.org";
     oidc_client_id := "link-client";
     http := fun _ c =>
       if Sample.posts "/auth/login" c
       then Sample.ok (Tokens (Some "app-access") (Some "app-refresh"))
       else Sample.rejected 500 None;
     idp := fun _ => inl (Error "network error") |}.

(** The backend answers every request with a body that has no [data]
    field. *)
Definition no_data : Env :=
  {| has_window := true;
     localStorage_works := true;
     search := [];
     oidc_authority := "https://idp.example.org";
     oidc_client_id := "link-client";
     http := fun _ _ => Sample.ok Empty;
     idp := fun _ => inl (Error "network error") |}.

(** A tab whose storages already hold other keys. *)
Definition used_tab : World :=
  {| store := {| user := present Sample.u0; isAuthenticated := true;
                 isLoading := false; error := Some "stale" |};
     isProcessingCallback := false;
     localStorage := {[ "theme" := Raw "dark" ]};
     sessionStorage := {[ "router-last-location" := Raw "/links";
                          "draft" := Raw "hello" ]};
     network := []; logouts_started := 0 |}.

End Scenario.

(** * The toast store (app/stores/toast.ts)

    A second Zustand store, without persistence.  Its only effects are on
    the page's timers, which are part of its world: [setTimeout] registers
    a callback under an identifier that no pending timer has, [clearTimeout]
    drops it, and a timer that fires is dropped and runs its callback. *)

Module Toast.

Inductive ToastSeverity := success | info | warning | error.

Inductive ToastPosition :=
| top_left | top_center | top_right
| bottom_left | bottom_center | bottom_right.

(** The data fields of [interface ToastState]. *)
Record ToastState := {
  open : bool;
  message : string;
  severity : ToastSeverity;
  duration : Z;
  position : ToastPosition;
  timeoutId : option positive
}.

(** What a pending timer will run: the callback that [showToast] passes to
    [setTimeout], or something the toast store knows nothing about. *)
Inductive Callback := CloseToast | Foreign.

Record Timer := { delay : Z; callback : Callback }.

Record World := {
  state : ToastState;
  timers : gmap positive Timer
}.

(** The initial state returned by the store creator. *)
Definition initial_state : ToastState :=
  {| open := false; message := ""; severity := info; duration := 5000;
     position := bottom_right; timeoutId := None |}.

(** [clearTimeout(id)] *)
Definition clearTimeout (id : positive) (w : World) : World :=
  {| state := state w; timers := delete id (timers w) |}.

(** [setTimeout(callback, delay)]: the identifier is one that no pending
    timer has. *)
Definition setTimeout (cb : Callback) (ms : Z) (w : World) : positive * World :=
  let id := fresh (dom (timers w)) in
  (id, {| state := state w;
          timers := <[id := {| delay := ms; callback := cb |}]> (timers w) |}).

(** [set(state => { if (state.timeoutId) clearTimeout(state.timeoutId);
    return { ...state, timeoutId: null } })] *)
Definition clear_pending (w : World) : World :=
  let w := match timeoutId (state w) with
           | Some id => clearTimeout id w
           | None => w
           end in
  {| state := {| open := open (state w); message := message (state w);
                 severity := severity (state w); duration := duration (state w);
                 position := position (state w); timeoutId := None |};
     timers := timers w |}.

(** [set({ open: false, timeoutId: null })] *)
Definition close (w : World) : World :=
  {| state := {| open := false; message := message (state w);
                 severity := severity (state w); duration := duration (state w);
                 position := position (state w); timeoutId := None |};
     timers := timers w |}.

(** [showToast(message, severity = 'info', duration = 5000,
    position = 'bottom-right')]; an argument left out is [None]. *)
Definition showToast (msg : string) (sev : option ToastSeverity)
    (ms : option Z) (pos : option ToastPosition) (w : World) : World :=
  let sev := default info sev in
  let ms := default 5000%Z ms in
  let pos := default bottom_right pos in
  let w := clear_pending w in
  let '(id, w) := setTimeout CloseToast ms w in
  {| state := {| open := true; message := msg; severity := sev;
                 duration := ms; position := pos; timeoutId := Some id |};
     timers := timers w |}.

(** [hideToast()] *)
Definition hideToast (w : World) : World :=
  let w := match timeoutId (state w) with
           | Some id => clearTimeout id w
           | None => w
           end in
  close w.

(** The timer [id] fires, if it is pending. *)
Definition fire (id : positive) (w : World) : World :=
  match timers w !! id with
  | None => w
  | Some t =>
      let w := {| state := state w; timers := delete id (timers w) |} in
      match callback t with
      | CloseToast => close w
      | Foreign => w
      end
  end.

(** The pending timers that would close the toast are exactly the one the
    state records. *)
Definition timer_recorded (w : World) : Prop :=
  forall id,
    (exists t, timers w !! id = Some t /\ callback t = CloseToast)
    <-> timeoutId (state w) = Some id.

(** What the user and the page can do to the world of the store. *)
Inductive Event :=
| Show (msg : string) (sev : option ToastSeverity) (ms : option Z)
       (pos : option ToastPosition)
| Hide
| Fire (id : positive).

Definition step (e : Event) (w : World) : World :=
  match e with
  | Show msg sev ms pos => showToast msg sev ms pos w
  | Hide => hideToast w
  | Fire id => fire id w
  end.

(** A page whose only pending timers are foreign ones. *)
Definition start (others : gmap positive Z) : World :=
  {| state := initial_state;
     timers := (fun ms => {| delay := ms; callback := Foreign |}) <$> others |}.

End Toast.

(** * Locale detection (app/i18n.ts) *)

Module I18n.

(** [export const locales = ['en', 'th'] as const] *)
Definition locales : list string := ["en"; "th"].

Definition getDefaultLocale : string := "en".

(** The character ['-']. *)
Definition dash : Ascii.ascii := Ascii.ascii_of_nat 45.

(** [s.split('-')[0]]: what comes before the first dash, the whole string
    when there is none. *)
Fixpoint split_dash_first (s : string) : string :=
  match s with
  | EmptyString => ""
  | String c rest =>
      if Ascii.eqb c dash then "" else String c (split_dash_first rest)
  end.

(** [locales.includes(x)] *)
Definition locales_includes (x : string) : bool :=
  existsb (String.eqb x) locales.

(** [detectLocale()]; the argument is [navigator.language], [None] where
    [navigator] is undefined. *)
Definition detectLocale (navigator_language : option string) : string :=
  match navigator_language with
  | Some language =>
      let browserLang := split_dash_first language in
      if locales_includes browserLang then browserLang else getDefaultLocale
  | None => getDefaultLocale
  end.

End I18n.

(** * The lazily created OIDC user manager (app/stores/auth.ts, config)

    The module-level variables [oidcConfig], [userManager] and
    [cachedMetadata] with the functions that fill them.  The library's own
    [getMetadata] is an effect: its [n]-th call is a fetch that the identity
    provider answers later, and the calls made are counted.  A call of the
    caching closure tests [cachedMetadata], awaits the fetch and assigns
    [cachedMetadata] only then, so other calls may begin in between. *)

Module Oidc.

(** What the module reads from its host: [window.location.origin] ([None]
    where there is no [window]) and [import.meta.env]. *)
Record Host := {
  origin : option string;
  PROD : bool;
  BASE_URL : option string;
  VITE_OIDC_AUTHORITY : option string;
  VITE_OIDC_CLIENT_ID : option string
}.

(** [export const baseUrl = import.meta.env.BASE_URL || '/'] *)
Definition baseUrl (host : Host) : string := or_else (BASE_URL host) "/".

(** [getOrigin] of the config module: falls back to [baseUrl]. *)
Definition config_getOrigin (host : Host) : string :=
  match origin host with
  | Some o => o
  | None => baseUrl host
  end.

(** [appConfig.oidcAuth.config] *)
Record OidcAuthConfig := {
  cfg_authority : string;
  cfg_client_id : string;
  cfg_redirect_uri : string;
  cfg_post_logout_redirect_uri : string
}.

Definition appConfig_oidcAuth_config (host : Host) : OidcAuthConfig :=
  {| cfg_authority := or_else (VITE_OIDC_AUTHORITY host) "";
     cfg_client_id := or_else (VITE_OIDC_CLIENT_ID host) "";
     cfg_redirect_uri := config_getOrigin host +:+ "/auth/callback";
     cfg_post_logout_redirect_uri := config_getOrigin host |}.

(** [getOrigin] of the store module: falls back to the dev server. *)
Definition getOrigin (host : Host) : string :=
  match origin host with
  | Some o => o
  | None => "http://localhost:5173"
  end.

(** [new WebStorageStateStore({ store: window.localStorage })] *)
Inductive StateStore := LocalStorageStore.

Record UserManagerSettings := {
  authority : string;
  client_id : string;
  redirect_uri : string;
  post_logout_redirect_uri : string;
  response_type : string;
  scope : string;
  automaticSilentRenew : bool;
  silent_redirect_uri : string;
  userStore : option StateStore;
  metadataUrl : option string;
  loadUserInfo : bool;
  monitorSession : bool;
  validateSubOnSilentRenew : bool;
  filterProtocolClaims : bool;
  response_mode : string
}.

(** The provider's discovery document. *)
Record Metadata := { issuer : string; token_endpoint : string }.

(** What [metadataService.getMetadata] currently is: the library's method,
    the closure that returns [cachedMetadata], or the closure that caches
    what the method it wraps returns. *)
Inductive GetMetadata :=
| Library
| ReturnCached
| CacheAfter (originalGetMetadata : GetMetadata).

Record UserManager := {
  settings : UserManagerSettings;
  debug_listeners : bool;      (* the three listeners added outside production *)
  getMetadata : GetMetadata
}.

(** The module-level variables; the number of calls made to the library's
    [getMetadata]; and those of them that are not answered yet, each with
    whether the call that made it came through the caching closure, which
    assigns [cachedMetadata] when the answer has come. *)
Record State := {
  cachedMetadata : option Metadata;
  oidcConfig : option UserManagerSettings;
  userManager : option UserManager;
  fetches : nat;
  waiting : gmap nat bool
}.

(** The module as loaded. *)
Definition loaded : State :=
  {| cachedMetadata := None; oidcConfig := None; userManager := None;
     fetches := 0; waiting := ∅ |}.

Definition getOidcConfig (host : Host) (st : State)
  : UserManagerSettings * State :=
  match oidcConfig st with
  | Some config => (config, st)
  | None =>
      let base := appConfig_oidcAuth_config host in
      let config :=
        {| authority := cfg_authority base;
           client_id := cfg_client_id base;
           redirect_uri := cfg_redirect_uri base;
           post_logout_redirect_uri := cfg_post_logout_redirect_uri base;
           response_type := "code";
           scope := "openid profile email offline_access";
           automaticSilentRenew := true;
           silent_redirect_uri := getOrigin host +:+ "/silent-renew.html";
           userStore :=
             match origin host with
             | Some _ => Some LocalStorageStore
             | None => None
             end;
           metadataUrl :=
             if truthy (Some (cfg_authority base))
             then Some (cfg_authority base
                        +:+ "/.well-known/openid-configuration")
             else None;
           loadUserInfo := false;
           monitorSession := false;
           validateSubOnSilentRenew := false;
           filterProtocolClaims := false;
           response_mode := "query" |} in
      (config,
       {| cachedMetadata := cachedMetadata st; oidcConfig := Some config;
          userManager := userManager st; fetches := fetches st;
          waiting := waiting st |})
  end.

Definition getUserManager (host : Host) (st : State)
  : option UserManager * State :=
  match origin host with
  | None => (None, st)
  | Some _ =>
      if negb oidcAuth_enabled then (None, st) else
      match userManager st with
      | Some manager => (Some manager, st)
      | None =>
          let '(config, st) := getOidcConfig host st in
          (* new UserManager(config), listeners outside production *)
          let method := Library in
          (* Use cached metadata if available *)
          let method :=
            match cachedMetadata st with
            | Some _ => ReturnCached
            | None => method
            end in
          (* Cache metadata after first fetch *)
          let method := CacheAfter method in
          let manager :=
            {| settings := config; debug_listeners := negb (PROD host);
               getMetadata := method |} in
          (Some manager,
           {| cachedMetadata := cachedMetadata st; oidcConfig := oidcConfig st;
              userManager := Some manager; fetches := fetches st;
              waiting := waiting st |})
      end
  end.

(** A call of [metadataService.getMetadata()], as far as it gets without
    waiting: it returns what is cached ([None] for a [cachedMetadata] that
    is still [null]), or it has reached the library's method, whose fetch
    it now awaits; [caching] tells whether it went through the closure
    that assigns [cachedMetadata] once the fetch has returned. *)
Inductive Started :=
| Returns (metadata : option Metadata)
| Fetches (caching : bool).

Fixpoint call_getMetadata (method : GetMetadata) (st : State) : Started :=
  match method with
  | Library => Fetches false
  | ReturnCached => Returns (cachedMetadata st)
  | CacheAfter originalGetMetadata =>
      match cachedMetadata st with
      | Some metadata => Returns (Some metadata)
      | None =>
          match call_getMetadata originalGetMetadata st with
          | Returns metadata => Returns metadata
          | Fetches _ => Fetches true
          end
      end
  end.

(** What happens to the module: somebody asks for the manager; a call of
    the manager's [getMetadata] begins; the library's [n]-th fetch is
    answered, and the call that awaits it goes on.  [provider n] is the
    outcome of that fetch.  Between the beginning of a call and the answer
    to its fetch anything else may happen. *)
Inductive Event :=
| AskManager
| AskMetadata
| Answer (n : nat).

Definition step (host : Host) (provider : nat -> JsError + Metadata)
    (st : State) (e : Event) : State :=
  match e with
  | AskManager => (getUserManager host st).2
  | AskMetadata =>
      match userManager st with
      | Some manager =>
          match call_getMetadata (getMetadata manager) st with
          | Returns _ => st
          | Fetches caching =>
              {| cachedMetadata := cachedMetadata st;
                 oidcConfig := oidcConfig st;
                 userManager := userManager st;
                 fetches := S (fetches st);
                 waiting := <[fetches st := caching]> (waiting st) |}
          end
      | None => st
      end
  | Answer n =>
      match waiting st !! n with
      | Some caching =>
          {| cachedMetadata :=
               match provider n with
               | inr metadata =>
                   match caching with
                   | true => Some metadata
                   | false => cachedMetadata st
                   end
               | inl _ => cachedMetadata st
               end;
             oidcConfig := oidcConfig st;
             userManager := userManager st;
             fetches := fetches st;
             waiting := delete n (waiting st) |}
      | None => st
      end
  end.

(** No call begins while another awaits its fetch. *)
Fixpoint one_at_a_time (host : Host) (provider : nat -> JsError + Metadata)
    (st : State) (events : list Event) : bool :=
  match events with
  | [] => true
  | e :: events =>
      match e with
      | AskMetadata => bool_decide (waiting st = ∅)
      | _ => true
      end
      && one_at_a_time host provider (step host provider st e) events
  end.

End Oidc.

(** What is cached comes from a fetch: it is the result of a fetch that
    was answered, and nothing is cached only as long as every fetch that
    was answered has failed. *)
Definition cached_from_fetch (provider : nat -> JsError + Oidc.Metadata)
    (st : Oidc.State) : Prop :=
  (forall n caching,
     Oidc.waiting st !! n = Some caching ->
     n < Oidc.fetches st /\ caching = true)
  /\ match Oidc.cachedMetadata st with
     | None =>
         forall k, k < Oidc.fetches st -> Oidc.waiting st !! k = None ->
                   exists e, provider k = inl e
     | Some metadata =>
         exists n,
           n < Oidc.fetches st /\ Oidc.waiting st !! n = None
           /\ provider n = inr metadata
     end.

(** The fetches made so far and the cache agree, as they do when calls do
    not overlap: the only fetch that may be awaited is the last one made,
    and then nothing is cached; nothing is cached while every fetch
    answered has failed; and what is cached is the result of the first
    fetch that succeeded, which was also the last one made. *)
Definition fetched_once (provider : nat -> JsError + Oidc.Metadata)
    (st : Oidc.State) : Prop :=
  (forall n caching,
     Oidc.waiting st !! n = Some caching ->
     Oidc.fetches st = S n /\ Oidc.cachedMetadata st = None)
  /\ match Oidc.cachedMetadata st with
     | None =>
         forall k, k < Oidc.fetches st -> Oidc.waiting st !! k = None ->
                   exists e, provider k = inl e
     | Some metadata =>
         exists n,
           Oidc.fetches st = S n
           /\ provider n = inr metadata
           /\ forall k, k < n -> exists e, provider k = inl e
     end.

(** The manager, once there is one, caches what the library fetches. *)
Definition manager_caches (st : Oidc.State) : Prop :=
  match Oidc.userManager st with
  | None => Oidc.cachedMetadata st = None /\ Oidc.fetches st = 0
  | Some manager => Oidc.getMetadata manager = Oidc.CacheAfter Oidc.Library
  end.

Module OidcSample.

Definition production : Oidc.Host :=
  {| Oidc.origin := Some "https://link.example.org";
     Oidc.PROD := true;
     Oidc.BASE_URL := None;
     Oidc.VITE_OIDC_AUTHORITY := Some "https://idp.example.org";
     Oidc.VITE_OIDC_CLIENT_ID := Some "link-client" |}.

Definition discovery : Oidc.Metadata :=
  {| Oidc.issuer := "https://idp.example.org";
     Oidc.token_endpoint := "https://idp.example.org/token" |}.

(** The provider is unreachable twice, then answers. *)
Definition flaky (n : nat) : JsError + Oidc.Metadata :=
  if Nat.ltb n 2 then inl (Error "Network Error") else inr discovery.

End OidcSample.

(** * The pages that drive the store (routes/OidcCallbackPage.tsx,
      components/ProtectedRoute.tsx, routes/home.tsx)

    The asynchronous functions of the pages, run to completion against the
    two stores.  A translated message is represented by its message id. *)

Module Pages.

(** [navigate(to, { state: { from }, replace })] *)
Record Navigation := {
  to : string;
  from : option string;
  replace : bool
}.

(** The stores and the router as the pages see them. *)
Record App := {
  auth : World;
  toast : Toast.World;
  navigations : list Navigation
}.

Definition with_auth (a : World) (app : App) : App :=
  {| auth := a; toast := toast app; navigations := navigations app |}.

Definition navigate (n : Navigation) (app : App) : App :=
  {| auth := auth app; toast := toast app;
     navigations := navigations app ++ [n] |}.

Definition showToast (msg : string) (sev : Toast.ToastSeverity) (app : App)
  : App :=
  {| auth := auth app;
     toast := Toast.showToast msg (Some sev) None None (toast app);
     navigations := navigations app |}.

(** *** OidcCallbackPage *)

(** The component's [useState] cells and its [processedRef]. *)
Record CallbackPage := {
  error : option string;
  isProcessing : bool;
  processedRef : bool
}.

(** The component as mounted. *)
Definition mounted : CallbackPage :=
  {| error := None; isProcessing := true; processedRef := false |}.

(** The [catch] block of [processCallback]. *)
Definition callback_failed (page : CallbackPage) (app : App)
  : CallbackPage * App :=
  ({| error := Some "login.error.oidc.callback"; isProcessing := false;
      processedRef := false |},
   showToast "login.error.oidc.callback" Toast.error app).

Definition processCallback (env : Env) (page : CallbackPage) (app : App)
  : CallbackPage * App :=
  if negb (truthy (urlParams_get (search env) "code")) then
    ({| error := Some "login.error.oidc.nocode"; isProcessing := false;
        processedRef := processedRef page |}, app)
  else
    let page := {| error := error page; isProcessing := isProcessing page;
                   processedRef := true |} in
    match run handleOidcCallback env (auth app) with
    | (Thrown _, a) => callback_failed page (with_auth a app)
    | (Returned result, a) =>
        let app := with_auth a app in
        if negb (truthy (cb_access_token result)) then
          ({| error := Some "login.error.oidc.notoken"; isProcessing := false;
              processedRef := processedRef page |}, app)
        else
          let access_token := default "" (cb_access_token result) in
          let refresh_token :=
            if truthy (cb_refresh_token result)
            then default "" (cb_refresh_token result) else "" in
          match run (setTokens access_token refresh_token) env (auth app) with
          | (Thrown _, a) => callback_failed page (with_auth a app)
          | (Returned _, a) =>
              match run loadUserProfile env a with
              | (Thrown _, a) => callback_failed page (with_auth a app)
              | (Returned _, a) =>
                  let app := with_auth a app in
                  let app := showToast "login.success.oidc" Toast.success app in
                  (page,
                   navigate {| to := "/"; from := None; replace := true |} app)
              end
          end
    end.

(** The effect: nothing when the callback has been processed already. *)
Definition callback_effect (env : Env) (page : CallbackPage) (app : App)
  : CallbackPage * App :=
  if processedRef page then (page, app) else processCallback env page app.

(** *** ProtectedRoute *)

(** [const { isAuthenticated, isLoading, verifyAuth } = useAuthStore()]:
    the object the store creator returns has the members [user],
    [isAuthenticated], [isLoading], [error], [login], [loadUserProfile],
    [getProfile], [logout], [clearError], [isOidcEnabled], [loginWithOidc],
    [handleOidcCallback] and [setTokens], and no [verifyAuth]; the
    destructured value is [undefined]. *)
Definition verifyAuth : option (Prog bool) := None.

(** Calling a value that is [undefined]. *)
Definition not_a_function (name : string) : JsError :=
  Error (name +:+ " is not a function").

(** [checkAuth] of the effect; [location] is the current path. *)
Definition checkAuth (env : Env) (location : string) (app : App)
  : Completion unit * App :=
  let to_login :=
    {| to := "/login"; from := Some location; replace := true |} in
  if isAuthenticated (store (auth app)) then
    match verifyAuth with
    | None => (Thrown (not_a_function "verifyAuth"), app)
    | Some verify =>
        match run verify env (auth app) with
        | (Thrown e, a) => (Thrown e, with_auth a app)
        | (Returned stillAuthenticated, a) =>
            (Returned tt,
             if negb stillAuthenticated
             then navigate to_login (with_auth a app)
             else with_auth a app)
        end
    end
  else if negb (isLoading (store (auth app))) then
    (Returned tt, navigate to_login app)
  else (Returned tt, app).

(** What [ProtectedRoute] renders. *)
Inductive Guarded := Spinner | Outlet | Nothing.

Definition ProtectedRoute (app : App) : Guarded :=
  if isLoading (store (auth app)) then Spinner
  else if isAuthenticated (store (auth app)) then Outlet else Nothing.

(** *** Home *)

(** What [Home] renders below its heading. *)
Inductive Block :=
| Welcome (username : string)      (* with the Logout button *)
| PleaseLogIn.

Definition Home (s : AuthState) : list Block :=
  (match isAuthenticated s, user s with
   | true, present u => [Welcome (username u)]
   | _, _ => []
   end)
  ++ (if negb (isAuthenticated s) then [PleaseLogIn] else []).

End Pages.

(** * Properties *)

(** ** How [run] and [start] go through the combinators *)

Lemma run_bind {A B} (p : Prog A) (f : A -> Prog B) env w :
  run (bind p f) env w =
  match run p env w with
  | (Returned a, w') => run (f a) env w'
  | (Thrown e, w') => (Thrown e, w')
  end.
Proof.
  revert w. induction p as [a|e|X c k IH|X c k IH]; intros w; simpl;
    try reflexivity.
  - destruct (exec c env w) as [x w']. apply IH.
  - apply IH.
Qed.

Lemma run_try_catch {A} (p : Prog A) (handler : JsError -> Prog A) env w :
  run (try_catch p handler) env w =
  match run p env w with
  | (Returned a, w') => (Returned a, w')
  | (Thrown e, w') => run (handler e) env w'
  end.
Proof.
  revert w. induction p as [a|e|X c k IH|X c k IH]; intros w; simpl;
    try reflexivity.
  - destruct (exec c env w) as [x w']. apply IH.
  - apply IH.
Qed.

Lemma run_finally {A} (p : Prog A) (cleanup : Prog unit) env w :
  run (finally p cleanup) env w =
  match run p env w with
  | (r, w') =>
      match run cleanup env w' with
      | (Returned _, w'') => (r, w'')
      | (Thrown e, w'') => (Thrown e, w'')
      end
  end.
Proof.
  revert w. induction p as [a|e|X c k IH|X c k IH]; intros w; simpl.
  - rewrite run_bind. destruct (run cleanup env w) as [[[]|e] w']; reflexivity.
  - rewrite run_bind. destruct (run cleanup env w) as [[[]|e'] w']; reflexivity.
  - destruct (exec c env w) as [x w']. apply IH.
  - apply IH.
Qed.

(** Running to completion is starting, then answering the pending call and
    resuming. *)
Lemma run_start {A} (p : Prog A) env w :
  run p env w =
  match start p env w with
  | Settled r w' => (r, w')
  | Suspended c k w' =>
      resume c k (answer c env (network w')) env (in_flight c env w')
  end.
Proof.
  revert w. induction p as [a|e|X c k IH|X c k IH]; intros w; simpl;
    try reflexivity.
  destruct (exec c env w) as [x w']. apply IH.
Qed.

(** ** The embedding at work *)

Example includes_inside :
  includes "JWT error: Invalid token specified" "Invalid token" = true
  /\ includes "Network Error" "Invalid token" = false
  /\ includes "" "Invalid token" = false.
Proof. repeat split. Qed.

Example urlParams_get_first :
  urlParams_get [("code", "abc"); ("state", "xyz"); ("code", "other")] "code"
    = Some "abc"
  /\ urlParams_get [("state", "xyz")] "code" = None.
Proof. split; reflexivity. Qed.

(** The end-to-end scenario: the backend accepts [u0] and serves a profile
    with [webAllowed: true]. *)
Example login_end_to_end :
  let outcome :=
    run (login "u0" "xxxx")
      (Sample.browser Sample.u0 (inr Sample.external_user)) Sample.fresh in
  outcome.1 = Returned true
  /\ isAuthenticated (store outcome.2) = true
  /\ user (store outcome.2) = present Sample.u0
  /\ network outcome.2 =
       [Http POST "/auth/login" (Credentials "u0" "xxxx");
        Http GET "/auth/me/info" NoBody].
Proof. repeat split. Qed.

(** The session expired for good: the logout request itself is answered
    401, the refresh fails, and the interceptor starts another logout. *)
Example logout_when_expired :
  let outcome := run logout (Sample.expired false) Sample.signed_in in
  outcome.1 = Returned tt
  /\ store outcome.2 = initial_state
  /\ logouts_started outcome.2 = 1.
Proof. repeat split. Qed.

(** ** The refresh interceptor *)

(** A config that is already marked is sent once and never replayed. *)
Lemma retried_no_replay depth onAuthFailed config env w :
  _retry config = true ->
  run (client_upto depth onAuthFailed config) env w =
  run (client_upto 0 onAuthFailed config) env w.
Proof.
  intros Hretry. destruct depth as [|depth]; [reflexivity|].
  simpl. destruct (http env (network w) (wire config)) as [rejection|response];
    [|reflexivity].
  unfold onRejected. simpl.
  destruct (rej_has_config rejection); [|reflexivity].
  rewrite Hretry, andb_false_r. reflexivity.
Qed.

(** One level of nesting is all the instance ever uses: allowing more
    changes nothing, so [too_much_recursion] is never reached. *)
Lemma client_nesting depth onAuthFailed config env w :
  run (client_upto (S depth) onAuthFailed config) env w =
  run (createApiClient onAuthFailed config) env w.
Proof.
  unfold createApiClient. simpl.
  destruct (http env (network w) (wire config)) as [rejection|response];
    [|reflexivity].
  unfold onRejected. simpl.
  destruct (rej_has_config rejection); [|reflexivity].
  destruct (status_is _ 401 && negb (_retry config)); [|reflexivity].
  simpl.
  destruct (http env (network w ++ [wire config]) (wire refresh_config));
    [reflexivity|].
  apply (retried_no_replay depth). reflexivity.
Qed.

(** What a request through [api] does to the world, case by case. *)
Lemma api_fulfilled env w config response :
  http env (network w) (wire config) = inr response ->
  run (api config) env w = (Returned response, sent (wire config) w).
Proof. intros H. unfold api, createApiClient. simpl. rewrite H. reflexivity. Qed.

Lemma api_passes_through env w config rejection :
  http env (network w) (wire config) = inl rejection ->
  rej_has_config rejection && status_is (axios_error rejection config) 401
    && negb (_retry config) = false ->
  run (api config) env w =
  (Thrown (axios_error rejection config), sent (wire config) w).
Proof.
  intros H Hguard. unfold api, createApiClient. simpl. rewrite H.
  unfold onRejected. simpl.
  destruct (rej_has_config rejection); [|reflexivity].
  simpl in Hguard. rewrite Hguard. reflexivity.
Qed.

Lemma api_refresh_failed env w config rejection refreshRejection :
  http env (network w) (wire config) = inl rejection ->
  rej_has_config rejection && status_is (axios_error rejection config) 401
    && negb (_retry config) = true ->
  http env (network w ++ [wire config]) (wire refresh_config)
    = inl refreshRejection ->
  run (api config) env w =
  (Thrown (axios_error refreshRejection refresh_config),
   logout_started (sent (wire refresh_config) (sent (wire config) w))).
Proof.
  intros H Hguard Hrefresh. unfold api, createApiClient. simpl. rewrite H.
  unfold onRejected. simpl.
  destruct (rej_has_config rejection); [|discriminate].
  simpl in Hguard. rewrite Hguard. simpl. rewrite Hrefresh. reflexivity.
Qed.

Lemma api_replayed env w config rejection refreshed :
  http env (network w) (wire config) = inl rejection ->
  rej_has_config rejection && status_is (axios_error rejection config) 401
    && negb (_retry config) = true ->
  http env (network w ++ [wire config]) (wire refresh_config)
    = inr refreshed ->
  run (api config) env w =
  (match http env (network w ++ [wire config] ++ [wire refresh_config])
           (wire config) with
   | inr response => Returned response
   | inl again => Thrown (axios_error again (with_retry config))
   end,
   sent (wire config) (sent (wire refresh_config) (sent (wire config) w))).
Proof.
  intros H Hguard Hrefresh. unfold api, createApiClient. simpl. rewrite H.
  unfold onRejected. simpl.
  destruct (rej_has_config rejection); [|discriminate].
  simpl in Hguard. rewrite Hguard. simpl. rewrite Hrefresh. simpl.
  rewrite <- app_assoc. simpl.
  change (wire (with_retry config)) with (wire config).
  destruct (http env (network w ++ _) (wire config)) as [again|response];
    [|reflexivity].
  simpl. destruct (rej_has_config again); simpl;
    rewrite ?andb_false_r; reflexivity.
Qed.

(** C4 (as amended).  A request through the API client that is rejected:
    when the rejection is a 401 that carries the request's config and the
    config has not been replayed yet, exactly one refresh call follows; if
    the refresh succeeds the original request is sent once more, marked as
    retried, and whatever that replay gives (its response, or its rejection
    without any further refresh) is the result; if the refresh fails, the
    authentication-failed callback runs once (a logout is started) and the
    rejection of the refresh call, not the original one, is propagated.  A
    rejection with any other status, or of a request already retried, is
    propagated as it is and nothing more is sent.  The store is never
    touched. *)
Theorem refresh_interceptor env w config rejection :
  http env (network w) (wire config) = inl rejection ->
  let original := axios_error rejection config in
  let asked := network w ++ [wire config] in
  (status_is original 401 = true -> rej_has_config rejection = true ->
   _retry config = false ->
     (forall refreshed,
        http env asked (wire refresh_config) = inr refreshed ->
        exists w',
          run (api config) env w =
            (match http env (asked ++ [wire refresh_config]) (wire config) with
             | inr response => Returned response
             | inl again => Thrown (axios_error again (with_retry config))
             end, w')
          /\ network w' =
               network w ++ [wire config; wire refresh_config; wire config]
          /\ logouts_started w' = logouts_started w
          /\ store w' = store w)
     /\
     (forall refreshRejection,
        http env asked (wire refresh_config) = inl refreshRejection ->
        exists w',
          run (api config) env w =
            (Thrown (axios_error refreshRejection refresh_config), w')
          /\ network w' = network w ++ [wire config; wire refresh_config]
          /\ logouts_started w' = S (logouts_started w)
          /\ store w' = store w))
  /\
  (status_is original 401 = false \/ _retry config = true ->
     exists w',
       run (api config) env w = (Thrown original, w')
       /\ network w' = network w ++ [wire config]
       /\ logouts_started w' = logouts_started w
       /\ store w' = store w).
Proof.
  intros Hrej original asked. split.
  - intros H401 Hcfg Hretry.
    assert (Hguard : rej_has_config rejection
                     && status_is (axios_error rejection config) 401
                     && negb (_retry config) = true).
    { fold original. rewrite H401, Hcfg, Hretry. reflexivity. }
    split.
    + intros refreshed Hrefresh. eexists. split.
      * rewrite (api_replayed _ _ _ _ _ Hrej Hguard Hrefresh).
        unfold asked. rewrite <- app_assoc. reflexivity.
      * simpl. rewrite <- !app_assoc. auto.
    + intros refreshRejection Hrefresh. eexists. split.
      * apply (api_refresh_failed _ _ _ _ _ Hrej Hguard Hrefresh).
      * simpl. rewrite <- !app_assoc. auto.
  - intros Hother. eexists. split.
    + apply (api_passes_through _ _ _ _ Hrej). fold original.
      destruct Hother as [-> | ->];
        rewrite ?andb_false_r; reflexivity.
    + simpl. auto.
Qed.

(** The three cases on the sample backends: an expired cookie that can be
    refreshed, one that cannot, and a rejection that is not a 401. *)
Lemma refresh_interceptor_witness :
  (exists w',
     run (api Sample.me_info) (Sample.expired true) Sample.fresh
       = (Returned {| status := 200;
                      response_data := Profile (present Sample.u0) |}, w')
     /\ network w' = [wire Sample.me_info; wire refresh_config;
                      wire Sample.me_info])
  /\ (exists e w',
        run (api Sample.me_info) (Sample.expired false) Sample.fresh
          = (Thrown e, w')
        /\ status_is e 403 = true
        /\ logouts_started w' = 1)
  /\ (exists e w',
        run (api Sample.me_info) Sample.wrong_password Sample.fresh
          = (Thrown e, w')
        /\ status_is e 400 = true
        /\ network w' = [wire Sample.me_info]).
Proof.
  split; [|split].
  - destruct (refresh_interceptor (Sample.expired true) Sample.fresh
                Sample.me_info _ eq_refl) as [[Hok _] _];
      [reflexivity..|].
    destruct (Hok _ eq_refl) as (w' & Hrun & Hnet & _).
    exists w'. split; [exact Hrun | exact Hnet].
  - destruct (refresh_interceptor (Sample.expired false) Sample.fresh
                Sample.me_info _ eq_refl) as [[_ Hko] _];
      [reflexivity..|].
    destruct (Hko _ eq_refl) as (w' & Hrun & _ & Hout & _).
    eexists; exists w'. split; [exact Hrun | split; [reflexivity | exact Hout]].
  - destruct (refresh_interceptor Sample.wrong_password Sample.fresh
                Sample.me_info _ eq_refl) as [_ Hpass].
    destruct (Hpass (or_introl eq_refl)) as (w' & Hrun & Hnet & _).
    eexists; exists w'. split; [exact Hrun | split; [reflexivity | exact Hnet]].
Defined.

(** C4 as stated does not hold: when the refresh call is rejected, the
    caller receives the refresh call's rejection (here a 403), not the
    original 401. *)
Lemma refresh_failure_loses_original :
  let env := Sample.expired false in
  let original :=
    {| rej_message := "Request failed with status code";
       rej_has_config := true;
       rej_response := Some {| err_status := 401;
                               err_data_message := Some "token expired" |} |} in
  http env [] (wire Sample.me_info) = inl original
  /\ (run (api Sample.me_info) env Sample.fresh).1
       <> Thrown (axios_error original Sample.me_info)
  /\ exists refreshError,
       (run (api Sample.me_info) env Sample.fresh).1 = Thrown refreshError
       /\ status_is refreshError 403 = true.
Proof.
  split; [reflexivity|]. split.
  - intros H. inversion H.
  - eexists. split; reflexivity.
Qed.

(** ** Frame properties *)

Lemma same_session_refl w : same_session w w.
Proof. repeat split. Qed.

Lemma same_session_sent c w : same_session w (sent c w).
Proof. repeat split. Qed.

Lemma same_session_logout_started w : same_session w (logout_started w).
Proof. repeat split. Qed.

Create HintDb session.
#[local] Hint Resolve same_session_refl same_session_sent
  same_session_logout_started : session.

(** A request through the API client sends the request first and touches
    nothing but the network log and the count of started logouts. *)
Lemma api_same_session env w config :
  same_session w (run (api config) env w).2
  /\ exists rest,
       network (run (api config) env w).2 = network w ++ wire config :: rest.
Proof.
  destruct (http env (network w) (wire config)) as [rejection|response] eqn:H.
  2:{ rewrite (api_fulfilled _ _ _ _ H). simpl. split; [auto with session|].
      exists nil. reflexivity. }
  destruct (rej_has_config rejection
            && status_is (axios_error rejection config) 401
            && negb (_retry config)) eqn:Hguard.
  2:{ rewrite (api_passes_through _ _ _ _ H Hguard). simpl.
      split; [auto with session|]. exists nil. reflexivity. }
  destruct (http env (network w ++ [wire config]) (wire refresh_config))
    as [refreshRejection|refreshed] eqn:Hrefresh.
  - rewrite (api_refresh_failed _ _ _ _ _ H Hguard Hrefresh). simpl.
    split; [repeat split|]. exists [wire refresh_config].
    simpl. rewrite <- app_assoc. reflexivity.
  - rewrite (api_replayed _ _ _ _ _ H Hguard Hrefresh). simpl.
    split; [repeat split|]. exists [wire refresh_config; wire config].
    simpl. rewrite <- !app_assoc. reflexivity.
Qed.

Lemma run_set partial env w :
  run (set partial) env w =
  (Returned tt, persist env (with_store (merge (store w) partial) w)).
Proof. reflexivity. Qed.

Lemma store_persist env w : store (persist env w) = store w.
Proof. unfold persist. destruct (storage env); reflexivity. Qed.

Lemma processing_persist env w :
  isProcessingCallback (persist env w) = isProcessingCallback w.
Proof. unfold persist. destruct (storage env); reflexivity. Qed.

(** ** [loadUserProfile] *)

(** The profile request was rejected. *)
Lemma loadUserProfile_rejected env w e w1 :
  run (api_get "/auth/me/info") env w = (Thrown e, w1) ->
  run loadUserProfile env w = (Returned null, w1).
Proof.
  intros H. unfold loadUserProfile.
  rewrite run_try_catch, run_bind, H. reflexivity.
Qed.

Lemma loadUserProfile_fulfilled env w response w1 :
  run (api_get "/auth/me/info") env w = (Returned response, w1) ->
  run loadUserProfile env w =
  match response_data response with
  | Undefined => (Returned null, w1)
  | Profile u =>
      (Returned u, persist env (with_store (merge (store w1) [user_is u]) w1))
  | Tokens _ _ | Empty =>
      (Returned undefined,
       persist env (with_store (merge (store w1) [user_is undefined]) w1))
  end.
Proof.
  intros H. unfold loadUserProfile.
  rewrite run_try_catch, run_bind, H. unfold data_data.
  destruct (response_data response); reflexivity.
Qed.

(** [loadUserProfile] never throws, and what it returns is the user it
    leaves in the store unless it leaves the store alone. *)
Lemma loadUserProfile_returns env w :
  exists u w',
    run loadUserProfile env w = (Returned u, w')
    /\ (user (store w') = u
        /\ isAuthenticated (store w') = isAuthenticated (store w)
        /\ isLoading (store w') = isLoading (store w)
        /\ error (store w') = error (store w)
        \/ u = null /\ store w' = store w).
Proof.
  destruct (api_same_session env w
              {| method := GET; url := "/auth/me/info"; data := NoBody;
                 _retry := false |}) as [(Hstore&_) _].
  fold (api_get "/auth/me/info") in Hstore.
  destruct (run (api_get "/auth/me/info") env w) as [[response|e] w1] eqn:H.
  - rewrite (loadUserProfile_fulfilled _ _ _ _ H). simpl in Hstore.
    destruct (response_data response); do 2 eexists;
      (split; [reflexivity|]); rewrite ?store_persist; simpl;
      rewrite ?Hstore; auto.
  - rewrite (loadUserProfile_rejected _ _ _ _ H). simpl in Hstore.
    do 2 eexists. split; [reflexivity|]. right. auto.
Qed.

(** ** [login] *)

Lemma login_unfold username password env w :
  run (login username password) env w =
  match run (api_post "/auth/login" (Credentials username password)) env
            (login_begun env w) with
  | (Returned _, w1) =>
      match run loadUserProfile env w1 with
      | (Returned user, w2) =>
          if no_web_access user then
            (Returned false,
             persist env
               (with_store
                  (merge (store w2)
                     [isAuthenticated_is false; isLoading_is false;
                      error_is (Some AUTH_ERRORS.UNAUTHORIZED); user_is null])
                  w2))
          else
            (Returned true,
             persist env
               (with_store
                  (merge (store w2)
                     [isAuthenticated_is true; isLoading_is false;
                      error_is None])
                  w2))
      | (Thrown error, w2) =>
          (Returned false,
           persist env
             (with_store
                (merge (store w2)
                   [isLoading_is false;
                    error_is (Some (or_else (response_message error)
                                      AUTH_ERRORS.LOGIN_FAILED));
                    isAuthenticated_is false])
                w2))
      end
  | (Thrown error, w1) =>
      (Returned false,
       persist env
         (with_store
            (merge (store w1)
               [isLoading_is false;
                error_is (Some (or_else (response_message error)
                                  AUTH_ERRORS.LOGIN_FAILED));
                isAuthenticated_is false])
            w1))
  end.
Proof.
  unfold login. rewrite run_bind, run_set. unfold login_begun.
  rewrite run_set. simpl snd.
  rewrite run_try_catch, run_bind.
  destruct (run (api_post _ _) env _) as [[response|error] w1];
    [|reflexivity].
  rewrite run_bind.
  destruct (run loadUserProfile env w1) as [[user|error] w2]; [|reflexivity].
  destruct (no_web_access user); reflexivity.
Qed.

(** C2.  The server accepts the credentials and the profile it then serves
    has [webAllowed === false]: [login] returns [false] and leaves
    [isAuthenticated = false], [user = null] and [error = 'Unauthorized']
    (and [isLoading = false]). *)
Theorem login_without_web_access env w username password response w1
    profile w2 u :
  run (api_post "/auth/login" (Credentials username password)) env
      (login_begun env w) = (Returned response, w1) ->
  run (api_get "/auth/me/info") env w1 = (Returned profile, w2) ->
  response_data profile = Profile (present u) ->
  webAllowed u = Some false ->
  exists w',
    run (login username password) env w = (Returned false, w')
    /\ isAuthenticated (store w') = false
    /\ user (store w') = null
    /\ error (store w') = Some AUTH_ERRORS.UNAUTHORIZED
    /\ isLoading (store w') = false.
Proof.
  intros Hlogin Hme Hdata Hweb.
  rewrite login_unfold, Hlogin, (loadUserProfile_fulfilled _ _ _ _ Hme), Hdata.
  simpl no_web_access. rewrite Hweb.
  eexists. split; [reflexivity|]. rewrite store_persist. repeat split.
Qed.

Lemma login_without_web_access_witness :
  exists w',
    run (login "guest" "xxxx") (Sample.browser Sample.guest (inr Sample.external_user))
        Sample.fresh = (Returned false, w')
    /\ isAuthenticated (store w') = false
    /\ user (store w') = null
    /\ error (store w') = Some "Unauthorized"
    /\ isLoading (store w') = false.
Proof.
  exact (login_without_web_access
           (Sample.browser Sample.guest (inr Sample.external_user))
           Sample.fresh "guest" "xxxx" _ _ _ _ Sample.guest
           eq_refl eq_refl eq_refl eq_refl).
Defined.



(** ** [logout] *)

Lemma logout_unfold env w :
  run logout env w =
  let w1 := (run (api_post "/auth/logout" (Params ∅)) env w).2 in
  let w2 :=
    persist env
      (with_store
         (merge (store w1)
            [user_is null; isAuthenticated_is false; error_is None]) w1) in
  (Returned tt, if has_window env then session_keys_removed w2 else w2).
Proof.
  unfold logout. rewrite run_bind, run_try_catch, run_bind.
  destruct (run (api_post _ _) env w) as [[response|e] w1]; simpl;
    destruct (has_window env); reflexivity.
Qed.

(** A request through [api_post] or [api_get], seen from the session. *)
Lemma api_post_same_session env w path body :
  same_session w (run (api_post path body) env w).2.
Proof. apply api_same_session. Qed.

Lemma logout_store env w :
  store (run logout env w).2 =
  {| user := null; isAuthenticated := false;
     isLoading := isLoading (store w); error := None |}.
Proof.
  rewrite logout_unfold.
  destruct (api_post_same_session env w "/auth/logout" (Params ∅))
    as (Hstore&_).
  destruct (run (api_post _ _) env w) as [r w1]. simpl in *.
  destruct (has_window env); simpl; rewrite store_persist; simpl;
    rewrite Hstore; reflexivity.
Qed.

Lemma removed_after_write (m : gmap string Item) item :
  delete "auth-storage" (delete "router-last-location"
    (<[persist_name := item]> m))
  = delete "auth-storage" (delete "router-last-location" m).
Proof.
  apply map_eq. intros k. unfold persist_name.
  rewrite !lookup_delete, lookup_insert.
  repeat case_decide; congruence.
Qed.


(** What [logout] leaves in the two storages. *)
Lemma logout_storages env w :
  localStorage (run logout env w).2 =
    match storage env with
    | Local => <[persist_name := signed_out_projection]> (localStorage w)
    | _ => localStorage w
    end
  /\ sessionStorage (run logout env w).2 =
       (if has_window env
        then delete "auth-storage"
               (delete "router-last-location" (sessionStorage w))
        else sessionStorage w)
  /\ isProcessingCallback (run logout env w).2 = isProcessingCallback w.
Proof.
  rewrite logout_unfold.
  destruct (api_post_same_session env w "/auth/logout" (Params ∅))
    as (_&Hflag&Hlocal&Hsession).
  destruct (run (api_post _ _) env w) as [r w1]. simpl in *.
  unfold persist, storage.
  destruct (has_window env), (localStorage_works env); simpl;
    rewrite ?removed_after_write, ?Hflag, ?Hlocal, ?Hsession; auto.
Qed.



(** ** [loadUserProfile] when the profile request is rejected *)

Lemma refresh_fails_true env w config :
  refresh_fails env w config = true ->
  exists rejection refreshRejection,
    http env (network w) (wire config) = inl rejection
    /\ rej_has_config rejection
       && status_is (axios_error rejection config) 401
       && negb (_retry config) = true
    /\ http env (network w ++ [wire config]) (wire refresh_config)
       = inl refreshRejection.
Proof.
  unfold refresh_fails.
  destruct (http env (network w) (wire config)) as [rejection|response];
    [|discriminate].
  destruct (rej_has_config rejection
            && status_is (axios_error rejection config) 401
            && negb (_retry config)) eqn:Hguard; [|discriminate].
  destruct (http env (network w ++ [wire config]) (wire refresh_config))
    as [refreshRejection|refreshed]; [|discriminate].
  intros _. exists rejection, refreshRejection. auto.
Qed.

(** The interceptor's callback runs exactly when the refresh call fails. *)
Lemma api_starts_logout env w config :
  logouts_started (run (api config) env w).2 =
  if refresh_fails env w config
  then S (logouts_started w) else logouts_started w.
Proof.
  unfold refresh_fails.
  destruct (http env (network w) (wire config)) as [rejection|response] eqn:H.
  2:{ rewrite (api_fulfilled _ _ _ _ H). reflexivity. }
  destruct (rej_has_config rejection
            && status_is (axios_error rejection config) 401
            && negb (_retry config)) eqn:Hguard.
  2:{ rewrite (api_passes_through _ _ _ _ H Hguard). reflexivity. }
  destruct (http env (network w ++ [wire config]) (wire refresh_config))
    as [refreshRejection|refreshed] eqn:Hrefresh.
  - rewrite (api_refresh_failed _ _ _ _ _ H Hguard Hrefresh). reflexivity.
  - rewrite (api_replayed _ _ _ _ _ H Hguard Hrefresh). reflexivity.
Qed.

Lemma started_logout_store env w n :
  logouts_started w = S n ->
  store (run_started_logout env w) =
  {| user := null; isAuthenticated := false;
     isLoading := isLoading (store w); error := None |}.
Proof.
  intros Hn. unfold run_started_logout. rewrite Hn.
  rewrite logout_store. reflexivity.
Qed.

(** C10 (as amended).  When the profile request is rejected,
    [loadUserProfile] returns [null], and at that moment every field of the
    session state, the callback flag and both storages are what they were
    before the call: the [catch] block only logs.  But the call does start
    a logout in one case, and in that case only: when the profile request
    was answered 401 and the refresh call that the interceptor then made
    was rejected as well.  The two requests are then all that was sent, and
    the logout that the interceptor's callback started leaves [user = null],
    [isAuthenticated = false] and [error = null] once it has run.  In every
    other case no logout is started, and if none was waiting before the
    call none runs after it. *)
Theorem loadUserProfile_failure env w e w' :
  let request :=
    {| method := GET; url := "/auth/me/info"; data := NoBody;
       _retry := false |} in
  run (api_get "/auth/me/info") env w = (Thrown e, w') ->
  run loadUserProfile env w = (Returned null, w')
  /\ user (store w') = user (store w)
  /\ isAuthenticated (store w') = isAuthenticated (store w)
  /\ isLoading (store w') = isLoading (store w)
  /\ error (store w') = error (store w)
  /\ same_session w w'
  /\ logouts_started w' =
       (if refresh_fails env w request
        then S (logouts_started w) else logouts_started w)
  /\ (refresh_fails env w request = true ->
        network w' = network w ++ [wire request; wire refresh_config]
        /\ store (run_started_logout env w') =
             {| user := null; isAuthenticated := false;
                isLoading := isLoading (store w); error := None |})
  /\ (refresh_fails env w request = false -> logouts_started w = 0 ->
        run_started_logout env w' = w').
Proof.
  intros request H. split; [exact (loadUserProfile_rejected _ _ _ _ H)|].
  destruct (api_same_session env w request) as [Hsame _].
  pose proof (api_starts_logout env w request) as Hcount.
  change (api request) with (api_get "/auth/me/info") in Hsame, Hcount.
  rewrite H in Hsame, Hcount. simpl in Hsame, Hcount.
  destruct Hsame as (Hstore & Hflag & Hlocal & Hsession). rewrite Hstore.
  do 4 (split; [reflexivity|]). split; [repeat split; assumption|].
  split; [exact Hcount|]. split.
  - intros Hfails. rewrite Hfails in Hcount.
    destruct (refresh_fails_true _ _ _ Hfails)
      as (rejection & refreshRejection & Hrej & Hguard & Hrefresh).
    pose proof (api_refresh_failed _ _ _ _ _ Hrej Hguard Hrefresh) as Hrun.
    change (api request) with (api_get "/auth/me/info") in Hrun.
    rewrite H in Hrun. injection Hrun as _ ->. split.
    + simpl. rewrite <- app_assoc. reflexivity.
    + rewrite (started_logout_store _ _ _ Hcount). reflexivity.
  - intros Hnot Hnone. rewrite Hnot, Hnone in Hcount.
    unfold run_started_logout. rewrite Hcount. reflexivity.
Qed.

(** A rejection that is not a 401: nothing but the profile request is
    sent, and no logout is started. *)
Lemma loadUserProfile_failure_witness :
  run loadUserProfile Sample.wrong_password Sample.signed_in
    = (Returned null, sent (wire Sample.me_info) Sample.signed_in)
  /\ store (sent (wire Sample.me_info) Sample.signed_in)
     = store Sample.signed_in
  /\ logouts_started (sent (wire Sample.me_info) Sample.signed_in) = 0.
Proof.
  destruct (loadUserProfile_failure Sample.wrong_password Sample.signed_in
              _ _ eq_refl)
    as (Hrun & _ & _ & _ & _ & (Hstore & _) & Hcount & _).
  split; [exact Hrun|]. split; [exact Hstore | exact Hcount].
Defined.

(** C10 as stated does not hold: with a session that has expired for good
    the profile request is rejected, [loadUserProfile] returns [null] with
    the state as it was, and the logout it has caused signs the user out:
    the failure has forced a logout. *)
Lemma profile_failure_forces_logout :
  let env := Sample.expired false in
  let outcome := run loadUserProfile env Sample.signed_in in
  (exists e, (run (api_get "/auth/me/info") env Sample.signed_in).1 = Thrown e)
  /\ outcome.1 = Returned null
  /\ store outcome.2 = store Sample.signed_in
  /\ logouts_started Sample.signed_in = 0
  /\ logouts_started outcome.2 = 1
  /\ user (store (run_started_logout env outcome.2)) = null
  /\ isAuthenticated (store (run_started_logout env outcome.2)) = false
  /\ store (run_started_logout env outcome.2) <> store Sample.signed_in.
Proof.
  split; [eexists; reflexivity|]. do 6 (split; [reflexivity|]).
  intros H. discriminate H.
Qed.

(** ** The session invariant *)

Lemma no_web_access_false user :
  no_web_access user = false ->
  exists u, user = present u /\ webAllowed u <> Some false.
Proof.
  destruct user as [| |u]; [discriminate..|]. simpl.
  destruct (webAllowed u) as [[]|] eqn:Hweb; try discriminate;
    intros _; exists u; rewrite Hweb; split; congruence.
Qed.

Lemma login_establishes_invariant env w username password :
  session_invariant (store (run (login username password) env w).2).
Proof.
  rewrite login_unfold.
  destruct (run (api_post _ _) env _) as [[response|rejection] w1].
  2:{ simpl. rewrite store_persist. intros H. discriminate. }
  destruct (loadUserProfile_returns env w1) as (u & w2 & -> & Hu).
  destruct (no_web_access u) eqn:Hweb; simpl; rewrite store_persist.
  - intros H. discriminate.
  - intros _. destruct (no_web_access_false _ Hweb) as (x & -> & Hx).
    exists x. simpl. destruct Hu as [(Hu&_)|(Hu&_)]; [|discriminate].
    split; [exact Hu | exact Hx].
Qed.

(** After [getProfile] the session is authenticated exactly when a profile
    was received, and that profile is then the user. *)
Lemma getProfile_store env w :
  let outcome := run getProfile env w in
  (exists u, outcome.1 = Returned (present u)
             /\ user (store outcome.2) = present u
             /\ isAuthenticated (store outcome.2) = true
             /\ error (store outcome.2) = None)
  \/ (outcome.1 = Returned null
      /\ user (store outcome.2) = null
      /\ isAuthenticated (store outcome.2) = false).
Proof.
  unfold getProfile. cbv zeta. rewrite run_try_catch, run_bind.
  destruct (run (api_get _) env w) as [[response|e] w1].
  - rewrite run_bind. unfold data_data.
    destruct (response_data response) as [|[| |u]| |]; simpl;
      rewrite ?store_persist; simpl; eauto 10.
  - simpl. rewrite store_persist. simpl. auto.
Qed.

(** C1 (as amended).  The invariant [isAuthenticated == true] implies
    [user] present with [webAllowed != false] holds in the initial state and
    after every [login] and every [logout], whatever the state before;
    [clearError] and the completion of a logout started by the interceptor
    preserve it.  The other operations give less: after [getProfile],
    [isAuthenticated == true] implies that [user] is present; [setTokens]
    sets [isAuthenticated] and leaves the other fields as they were;
    [loadUserProfile] leaves [isAuthenticated] as it was. *)
Theorem session_invariant_maintained env w :
  session_invariant initial_state
  /\ (forall username password,
        session_invariant (store (run (login username password) env w).2))
  /\ session_invariant (store (run logout env w).2)
  /\ (session_invariant (store w) ->
      session_invariant (store (run clearError env w).2))
  /\ (session_invariant (store w) ->
      session_invariant (store (run_started_logout env w)))
  /\ (isAuthenticated (store (run getProfile env w).2) = true ->
      exists u, user (store (run getProfile env w).2) = present u)
  /\ (forall accessToken refreshToken,
        store (run (setTokens accessToken refreshToken) env w).2
        = {| user := user (store w); isAuthenticated := true;
             isLoading := isLoading (store w); error := error (store w) |})
  /\ isAuthenticated (store (run loadUserProfile env w).2)
     = isAuthenticated (store w).
Proof.
  split; [intros H; discriminate|].
  split; [intros; apply login_establishes_invariant|].
  split; [rewrite logout_store; intros H; discriminate|].
  split.
  { simpl. rewrite store_persist. intros Hinv H. exact (Hinv H). }
  split.
  { unfold run_started_logout. destruct (logouts_started w); [auto|].
    intros _. rewrite logout_store. intros H. discriminate. }
  split.
  { destruct (getProfile_store env w) as [(u & _ & Hu & _)|(_ & _ & Hno)].
    - eauto.
    - cbv zeta in Hno. rewrite Hno. discriminate. }
  split.
  { intros. simpl. apply store_persist. }
  destruct (loadUserProfile_returns env w) as (u & w' & -> & [(_&H&_)|(_&H)]);
    simpl; [exact H | rewrite H; reflexivity].
Qed.

Lemma session_invariant_maintained_witness :
  session_invariant (store (run clearError Sample.wrong_password Sample.signed_in).2)
  /\ session_invariant
       (store (run (login "u0" "xxxx")
                 (Sample.browser Sample.u0 (inr Sample.external_user))
                 Sample.fresh).2).
Proof.
  split.
  - apply (session_invariant_maintained Sample.wrong_password Sample.signed_in).
    intros _. exists Sample.u0. split; [reflexivity | discriminate].
  - apply (session_invariant_maintained
             (Sample.browser Sample.u0 (inr Sample.external_user))
             Sample.fresh).
Defined.

(** C1 as stated does not hold: [setTokens] on a freshly created store
    leaves [isAuthenticated = true] with no user. *)
Lemma setTokens_breaks_invariant :
  let w' := (run (setTokens "app-access" "app-refresh")
               (Sample.browser Sample.u0 (inr Sample.external_user))
               Sample.fresh).2 in
  session_invariant (store Sample.fresh)
  /\ isAuthenticated (store w') = true
  /\ user (store w') = null
  /\ ~ session_invariant (store w').
Proof.
  split; [intros H; discriminate|]. do 2 (split; [reflexivity|]).
  intros H. destruct (H eq_refl) as (u & Hu & _). discriminate.
Qed.

(** Nor do [getProfile] and [loadUserProfile] check [webAllowed]: a profile
    with [webAllowed = false] is accepted as the user of an authenticated
    session. *)
Lemma getProfile_accepts_any_profile :
  let w' := (run getProfile
               (Sample.browser Sample.guest (inr Sample.external_user))
               Sample.fresh).2 in
  isAuthenticated (store w') = true /\ user (store w') = present Sample.guest.
Proof. split; reflexivity. Qed.

Lemma loadUserProfile_accepts_any_profile :
  let w' := (run loadUserProfile
               (Sample.browser Sample.guest (inr Sample.external_user))
               Sample.signed_in).2 in
  isAuthenticated (store w') = true /\ user (store w') = present Sample.guest.
Proof. split; reflexivity. Qed.

(** ** The persisted projection *)

Lemma partialize_fields state :
  dom (partialize state) = {[ "user"; "isAuthenticated" ]}.
Proof.
  unfold partialize. rewrite dom_insert_L, dom_singleton_L. reflexivity.
Qed.

(** What [JSON.stringify] keeps of the object that [partialize] builds. *)
Lemma stored_fields state :
  let fields := JSON_stringify (partialize state) in
  fields !! "isAuthenticated" = Some (VBool (isAuthenticated state))
  /\ fields !! "user" =
       match user state with
       | undefined => None
       | null => Some VNull
       | present u => Some (VUser u)
       end
  /\ forall key, key <> "user" -> key <> "isAuthenticated" ->
       fields !! key = None.
Proof.
  cbv zeta. unfold JSON_stringify, partialize. split; [|split].
  - rewrite lookup_omap, lookup_insert_ne by discriminate.
    rewrite lookup_singleton_eq. reflexivity.
  - rewrite lookup_omap, lookup_insert_eq. destruct (user state); reflexivity.
  - intros key Huser Hauth.
    rewrite lookup_omap, lookup_insert_ne by congruence.
    rewrite lookup_singleton_ne by congruence. reflexivity.
Qed.

Lemma stored_fields_dom state :
  dom (JSON_stringify (partialize state)) ⊆ {[ "user"; "isAuthenticated" ]}.
Proof.
  intros key Hkey. apply elem_of_dom in Hkey as [value Hvalue].
  destruct (stored_fields state) as (_ & _ & Hother).
  rewrite elem_of_union, !elem_of_singleton.
  destruct (decide (key = "user")) as [|Huser]; [auto|].
  destruct (decide (key = "isAuthenticated")) as [|Hauth]; [auto|].
  rewrite (Hother key Huser Hauth) in Hvalue. discriminate Hvalue.
Qed.

Lemma persisted_after_persist env w :
  persisted env (persist env w) =
  match storage env with
  | NoStorage => None
  | _ => Some (Persisted (JSON_stringify (partialize (store w)))
                 persist_version)
  end.
Proof.
  unfold persisted, persist.
  destruct (storage env); simpl; [reflexivity|apply lookup_insert_eq..].
Qed.

(** The entries of oidc-client-ts are not the store's. *)
Lemma oidc_state_key_entry state : oidc_entry (oidc_state_key state) = true.
Proof. destruct state; reflexivity. Qed.

Lemma oidc_user_key_entry env : oidc_entry (oidc_user_key env) = true.
Proof. reflexivity. Qed.

Lemma not_oidc_entry key key' :
  oidc_entry key = false -> oidc_entry key' = true -> key' <> key.
Proof. intros Hkey Hkey' ->. congruence. Qed.

(** What an awaited call does to the browser besides being sent: nothing
    for a request of the API client, and for the exchange with the identity
    provider nothing outside the library's entries in [localStorage]. *)
Lemma departs_session {X} (c : Net X) env w :
  session_untouched w (departs c env w)
  /\ isProcessingCallback (departs c env w) = isProcessingCallback w
  /\ network (departs c env w) = network w
  /\ logouts_started (departs c env w) = logouts_started w.
Proof.
  destruct c as [config|]; simpl; [repeat split|].
  destruct (has_window env); [|repeat split].
  destruct (urlParams_get (search env) "state") as [state|]; [|repeat split].
  destruct (String.eqb state ""); repeat split.
  intros key Hkey. simpl. apply lookup_delete_ne.
  exact (not_oidc_entry _ _ Hkey (oidc_state_key_entry state)).
Qed.

Lemma arrives_session {X} (c : Net X) env x w :
  session_untouched w (arrives c env x w)
  /\ isProcessingCallback (arrives c env x w) = isProcessingCallback w
  /\ network (arrives c env x w) = network w
  /\ logouts_started (arrives c env x w) = logouts_started w.
Proof.
  destruct c as [config|]; simpl; [repeat split|].
  destruct x as [e|user]; [repeat split|].
  destruct (has_window env); repeat split.
  intros key Hkey. simpl. apply lookup_insert_ne.
  exact (not_oidc_entry _ _ Hkey (oidc_user_key_entry env)).
Qed.

Lemma session_untouched_refl w : session_untouched w w.
Proof. repeat split. Qed.

Lemma session_untouched_trans w1 w2 w3 :
  session_untouched w1 w2 -> session_untouched w2 w3 ->
  session_untouched w1 w3.
Proof.
  intros (Hs & Hss & Hl) (Hs' & Hss' & Hl'). split; [congruence|].
  split; [congruence|]. intros key Hkey. rewrite Hl', Hl; auto.
Qed.

(** While the request is in flight, and when the answer has come. *)
Lemma in_flight_session {X} (c : Net X) env w :
  session_untouched w (in_flight c env w)
  /\ isProcessingCallback (in_flight c env w) = isProcessingCallback w
  /\ network (in_flight c env w) = network w ++ [call c]
  /\ logouts_started (in_flight c env w) = logouts_started w.
Proof.
  destruct (departs_session c env w) as (Hs & Hf & Hn & Hl).
  unfold in_flight. simpl. rewrite Hn. auto.
Qed.

Lemma answered_session {X} (c : Net X) env x w :
  session_untouched w (arrives c env x (in_flight c env w))
  /\ isProcessingCallback (arrives c env x (in_flight c env w))
     = isProcessingCallback w
  /\ network (arrives c env x (in_flight c env w)) = network w ++ [call c]
  /\ logouts_started (arrives c env x (in_flight c env w))
     = logouts_started w.
Proof.
  destruct (in_flight_session c env w) as (Hs & Hf & Hn & Hl).
  destruct (arrives_session c env x (in_flight c env w))
    as (Hs' & Hf' & Hn' & Hl').
  split; [exact (session_untouched_trans _ _ _ Hs Hs')|].
  split; [congruence|]. split; congruence.
Qed.

Lemma session_untouched_persisted env w w' :
  session_untouched w w' ->
  persisted env w' = persisted env w /\ store w' = store w.
Proof.
  intros (Hs & Hss & Hl). split; [|exact Hs]. unfold persisted.
  destruct (storage env); [reflexivity| |congruence].
  apply Hl. reflexivity.
Qed.

Lemma exec_in_sync {X} (c : Cmd X) env w :
  in_sync env w -> in_sync env (exec c env w).2.
Proof.
  destruct c as [|partial| | | | |key|]; simpl; auto.
  { (* set *)
    intros _. unfold in_sync.
    rewrite persisted_after_persist, store_persist.
    destruct (storage env); auto. }
  (* sessionStorage.removeItem *)
  unfold in_sync, persisted. destruct (storage env); simpl; auto.
  rewrite lookup_delete. case_decide; auto.
Qed.

Lemma run_in_sync {A} (p : Prog A) env w :
  in_sync env w -> in_sync env (run p env w).2.
Proof.
  revert w. induction p as [a|e|X c k IH|X c k IH]; intros w Hw; simpl; auto.
  - pose proof (exec_in_sync c env w Hw) as Hc.
    destruct (exec c env w) as [x w']. apply IH, Hc.
  - apply IH. unfold in_sync.
    destruct (answered_session c env (answer c env (network w)) w)
      as (Hs & _).
    destruct (session_untouched_persisted env _ _ Hs) as [-> ->]. exact Hw.
Qed.

(** C9 (as amended).  The object that [partialize] builds has the fields
    [user] and [isAuthenticated] and no other, hence neither [isLoading]
    nor [error].  Every [set] writes that object for the new state, in
    JSON, to the storage in use.  Whatever the store runs, what is then
    found in that storage, if anything, has [isAuthenticated] with the
    value of the state; it has [user] with the value of the state unless
    [user] is [undefined], in which case JSON leaves the field out; and it
    has no other field, so never [isLoading] nor [error], also when the
    state carries an error. *)
Theorem persisted_projection env w :
  in_sync env w ->
  (forall state,
     dom (partialize state) = {[ "user"; "isAuthenticated" ]}
     /\ partialize state !! "isLoading" = None
     /\ partialize state !! "error" = None)
  /\ (forall partial,
        persisted env (run (set partial) env w).2 =
        match storage env with
        | NoStorage => None
        | _ =>
            Some (Persisted
                    (JSON_stringify (partialize (merge (store w) partial)))
                    persist_version)
        end)
  /\ (forall A (action : Prog A),
        let w' := (run action env w).2 in
        forall item,
          persisted env w' = Some item ->
          exists fields,
            item = Persisted fields persist_version
            /\ fields !! "isAuthenticated"
               = Some (VBool (isAuthenticated (store w')))
            /\ fields !! "user" =
                 match user (store w') with
                 | undefined => None
                 | null => Some VNull
                 | present u => Some (VUser u)
                 end
            /\ fields !! "isLoading" = None
            /\ fields !! "error" = None
            /\ dom fields ⊆ {[ "user"; "isAuthenticated" ]}).
Proof.
  intros Hw. split; [|split].
  - intros state. split; [apply partialize_fields|]. split; reflexivity.
  - intros partial. rewrite run_set. simpl.
    apply persisted_after_persist.
  - intros A action w' item Hitem.
    destruct (run_in_sync action env w Hw) as [Hnone|Hsome]; subst w';
      [congruence|].
    rewrite Hsome in Hitem. injection Hitem as <-.
    destruct (stored_fields (store (run action env w).2))
      as (Hauth & Huser & Hother).
    eexists. split; [reflexivity|]. split; [exact Hauth|].
    split; [exact Huser|].
    split; [apply Hother; discriminate|].
    split; [apply Hother; discriminate|].
    apply stored_fields_dom.
Qed.

(** After a failed [login] the state carries an error, and what is in
    [localStorage] is the projection of a signed-out session, with its two
    fields. *)
Lemma persisted_projection_witness :
  let w' := (run (login "u0" "wrong") Sample.wrong_password Sample.fresh).2 in
  error (store w') = Some "Invalid username or password"
  /\ persisted Sample.wrong_password w' = Some signed_out_projection
  /\ exists fields,
       signed_out_projection = Persisted fields persist_version
       /\ fields !! "isLoading" = None
       /\ fields !! "error" = None.
Proof.
  intros w'. split; [reflexivity|].
  destruct (persisted_projection Sample.wrong_password Sample.fresh
              (or_introl eq_refl)) as (_ & _ & H).
  destruct (H _ (login "u0" "wrong") signed_out_projection eq_refl)
    as (fields & Hitem & _ & _ & Hloading & Herror & _).
  split; [reflexivity|]. exists fields. auto.
Defined.

(** C9 as stated does not hold: when the profile request is answered with
    a body that has no [data], [loadUserProfile] leaves [user] undefined,
    and the projection written to storage has the single field
    [isAuthenticated]: it has no field [user]. *)
Lemma undefined_user_not_persisted :
  let w' := (run loadUserProfile Scenario.no_data Sample.signed_in).2 in
  user (store w') = undefined
  /\ persisted Scenario.no_data w'
     = Some (Persisted {[ "isAuthenticated" := VBool true ]} 1)
  /\ forall fields version,
       persisted Scenario.no_data w' = Some (Persisted fields version) ->
       fields !! "user" = None
       /\ dom fields <> {[ "user"; "isAuthenticated" ]}.
Proof.
  intros w'.
  assert (Hitem : persisted Scenario.no_data w'
                  = Some (Persisted {[ "isAuthenticated" := VBool true ]} 1))
    by (vm_compute; reflexivity).
  split; [reflexivity|]. split; [exact Hitem|].
  intros fields version Hfields. rewrite Hitem in Hfields.
  injection Hfields as <- _. split; [reflexivity|].
  rewrite dom_singleton_L. intros Hdom.
  assert (Huser : "user" ∈ ({[ "isAuthenticated" ]} : gset string)).
  { rewrite Hdom, elem_of_union, !elem_of_singleton. auto. }
  apply elem_of_singleton in Huser. discriminate Huser.
Qed.

(** ** The federated callback *)

(** *** Programs that leave [isProcessingCallback] alone *)

Lemma leaves_processing_bind {A B} (p : Prog A) (f : A -> Prog B) :
  leaves_processing p -> (forall a, leaves_processing (f a)) ->
  leaves_processing (bind p f).
Proof.
  intros Hp Hf. induction p as [a|e|X c k IH|X c k IH]; simpl in *; auto.
  destruct Hp as [Hc Hk]. split; auto.
Qed.

Lemma leaves_processing_try_catch {A} (p : Prog A) handler :
  leaves_processing p -> (forall e, leaves_processing (handler e)) ->
  leaves_processing (try_catch p handler).
Proof.
  intros Hp Hh. induction p as [a|e|X c k IH|X c k IH]; simpl in *; auto.
  destruct Hp as [Hc Hk]. split; auto.
Qed.

Lemma leaves_processing_client depth config :
  leaves_processing (client_upto depth (do StartLogout) config).
Proof.
  revert config. induction depth as [|depth IH]; intros config;
    simpl; intros [rejection|response]; simpl; auto;
    unfold onRejected; simpl;
    destruct (rej_has_config rejection); simpl; auto;
    destruct (_ && _); simpl; auto;
    intros [refreshError|refreshed]; simpl; auto.
Qed.

Lemma leaves_processing_api_post path body :
  leaves_processing (api_post path body).
Proof. apply leaves_processing_client. Qed.

Lemma leaves_processing_try_block :
  leaves_processing (try_catch callback_try_block (fun error => Throw error)).
Proof.
  apply leaves_processing_try_catch; [|simpl; auto].
  unfold callback_try_block.
  apply leaves_processing_bind; [simpl; auto|]. intros code.
  apply leaves_processing_bind; [simpl; auto|]. intros state.
  destruct (negb (truthy code) || negb (truthy state)); [simpl; auto|].
  apply leaves_processing_bind.
  - unfold signin_or_fallback. simpl. intros [e|user]; simpl; auto.
    destruct (_ && _); simpl; auto.
  - intros user. apply leaves_processing_bind;
      [apply leaves_processing_api_post|].
    intros response. unfold data_tokens.
    destruct (response_data response); simpl; auto.
Qed.

Lemma exec_leaves_processing {X} (c : Cmd X) env w :
  assigns_processing c = false ->
  isProcessingCallback (exec c env w).2 = isProcessingCallback w.
Proof.
  destruct c; simpl; try discriminate; auto.
  intros _. rewrite processing_persist. reflexivity.
Qed.

Lemma run_leaves_processing {A} (p : Prog A) env w :
  leaves_processing p ->
  isProcessingCallback (run p env w).2 = isProcessingCallback w.
Proof.
  revert w. induction p as [a|e|X c k IH|X c k IH]; intros w Hp; simpl in *;
    auto.
  - destruct Hp as [Hc Hk]. pose proof (exec_leaves_processing c env w Hc) as E.
    destruct (exec c env w) as [x w']. simpl in E. rewrite <- E. auto.
  - rewrite IH by auto.
    apply (answered_session c env (answer c env (network w)) w).
Qed.

Lemma suspensions_leave_processing {A} (p : Prog A) env w busy :
  leaves_processing p -> busy ∈ suspensions p env w ->
  isProcessingCallback busy = isProcessingCallback w.
Proof.
  revert w. induction p as [a|e|X c k IH|X c k IH]; intros w Hp Hbusy;
    simpl in *.
  - inversion Hbusy.
  - inversion Hbusy.
  - destruct Hp as [Hc Hk]. pose proof (exec_leaves_processing c env w Hc) as E.
    destruct (exec c env w) as [x w']. simpl in E. rewrite <- E. eauto.
  - apply elem_of_cons in Hbusy as [->|Hbusy].
    + apply (in_flight_session c env w).
    + rewrite (IH _ _ (Hp _) Hbusy).
      apply (answered_session c env (answer c env (network w)) w).
Qed.

(** *** Suspensions through the combinators *)

Lemma suspensions_bind {A B} (p : Prog A) (f : A -> Prog B) env w :
  suspensions (bind p f) env w =
  suspensions p env w ++
  match run p env w with
  | (Returned a, w') => suspensions (f a) env w'
  | (Thrown _, _) => []
  end.
Proof.
  revert w. induction p as [a|e|X c k IH|X c k IH]; intros w; simpl; auto.
  - destruct (exec c env w) as [x w']. apply IH.
  - rewrite IH. reflexivity.
Qed.

Lemma suspensions_finally {A} (p : Prog A) b env w :
  suspensions (finally p (do (WriteProcessing b))) env w
  = suspensions p env w.
Proof.
  revert w. induction p as [a|e|X c k IH|X c k IH]; intros w; simpl; auto.
  - destruct (exec c env w) as [x w']. apply IH.
  - rewrite IH. reflexivity.
Qed.

(** *** The guards of [handleOidcCallback] *)

Opaque callback_try_block.

Lemma handleOidcCallback_no_window env w :
  has_window env = false ->
  start handleOidcCallback env w = Settled (Thrown (Error not_enabled)) w.
Proof.
  intros H. unfold handleOidcCallback, getUserManager. simpl.
  rewrite H. reflexivity.
Qed.

Lemma handleOidcCallback_busy env w :
  has_window env = true -> isProcessingCallback w = true ->
  start handleOidcCallback env w
  = Settled (Thrown (Error already_processing)) w.
Proof.
  intros Hwin Hflag. unfold handleOidcCallback, getUserManager. simpl.
  rewrite Hwin. simpl. rewrite Hflag. reflexivity.
Qed.

(** Past the guards, the flag is set and the [try] block runs; the
    [finally] clause adds no request of its own. *)
Lemma handleOidcCallback_enters env w :
  has_window env = true -> isProcessingCallback w = false ->
  run handleOidcCallback env w =
    run (finally (try_catch callback_try_block (fun error => Throw error))
           (do (WriteProcessing false))) env (with_flag true w)
  /\ start handleOidcCallback env w =
       start (finally (try_catch callback_try_block (fun error => Throw error))
                (do (WriteProcessing false))) env (with_flag true w)
  /\ suspensions handleOidcCallback env w =
       suspensions (try_catch callback_try_block (fun error => Throw error))
         env (with_flag true w).
Proof.
  intros Hwin Hflag.
  rewrite <- (suspensions_finally (try_catch callback_try_block _) false).
  unfold handleOidcCallback, getUserManager. simpl.
  rewrite Hwin. simpl. rewrite Hflag. repeat split; reflexivity.
Qed.

Transparent callback_try_block.

Lemma settled_no_suspension {A} (p : Prog A) env w r w' :
  start p env w = Settled r w' -> suspensions p env w = [].
Proof.
  revert w. induction p as [a|e|X c k IH|X c k IH]; intros w; simpl; auto.
  - destruct (exec c env w) as [x w0]. apply IH.
  - discriminate.
Qed.

Lemma with_flag_restored w :
  isProcessingCallback w = false -> with_flag false (with_flag true w) = w.
Proof. destruct w. simpl. intros ->. reflexivity. Qed.

(** C3.  In every world in which a request of a [handleOidcCallback] call
    is in flight, [isProcessingCallback] is set, and a second call made
    there settles at once, without suspending, with the error 'OIDC
    callback is already being processed' and leaves the world exactly as it
    is: nothing is sent and the flag stays set.  The call that got past the
    guard clears the flag when it completes, whatever its outcome.  Such a
    call, when the URL has a code and a state, is first in flight on the
    exchange with the identity provider. *)
Theorem duplicate_callback env w :
  (forall busy,
     busy ∈ suspensions handleOidcCallback env w ->
     isProcessingCallback busy = true
     /\ start handleOidcCallback env busy
        = Settled (Thrown (Error already_processing)) busy)
  /\ (has_window env = true -> isProcessingCallback w = false ->
      isProcessingCallback (run handleOidcCallback env w).2 = false
      /\ (truthy (urlParams_get (search env) "code") = true ->
          truthy (urlParams_get (search env) "state") = true ->
          exists later,
            suspensions handleOidcCallback env w
            = in_flight SigninRedirectCallback env (with_flag true w)
              :: later)).
Proof.
  split.
  - intros busy Hbusy.
    destruct (has_window env) eqn:Hwin.
    2:{ rewrite (settled_no_suspension _ _ _ _ _
                   (handleOidcCallback_no_window env w Hwin)) in Hbusy.
        inversion Hbusy. }
    destruct (isProcessingCallback w) eqn:Hflag.
    { rewrite (settled_no_suspension _ _ _ _ _
                 (handleOidcCallback_busy env w Hwin Hflag)) in Hbusy.
      inversion Hbusy. }
    destruct (handleOidcCallback_enters env w Hwin Hflag) as (_ & _ & Hsusp).
    rewrite Hsusp in Hbusy.
    apply (suspensions_leave_processing _ _ _ _ leaves_processing_try_block)
      in Hbusy.
    simpl in Hbusy. split; [exact Hbusy|].
    apply handleOidcCallback_busy; assumption.
  - intros Hwin Hflag.
    destruct (handleOidcCallback_enters env w Hwin Hflag)
      as (Hrun & _ & Hsusp).
    split.
    + rewrite Hrun, run_finally.
      destruct (run (try_catch callback_try_block _) env (with_flag true w))
        as [r w1]. reflexivity.
    + intros Hcode Hstate. rewrite Hsusp. unfold callback_try_block. simpl.
      rewrite Hcode, Hstate. simpl. eauto.
Qed.

Lemma duplicate_callback_witness :
  let env := Sample.browser Sample.u0 (inr Sample.external_user) in
  let busy :=
    in_flight SigninRedirectCallback env (with_flag true Sample.fresh) in
  busy ∈ suspensions handleOidcCallback env Sample.fresh
  /\ isProcessingCallback busy = true
  /\ start handleOidcCallback env busy
     = Settled (Thrown (Error already_processing)) busy
  /\ isProcessingCallback (run handleOidcCallback env Sample.fresh).2 = false.
Proof.
  intros env busy.
  destruct (duplicate_callback env Sample.fresh) as [Hsecond Hfirst].
  destruct (Hfirst eq_refl eq_refl) as [Hcleared Hflight].
  destruct (Hflight eq_refl eq_refl) as [later Hlater].
  assert (Hin : busy ∈ suspensions handleOidcCallback env Sample.fresh).
  { rewrite Hlater. apply list_elem_of_here. }
  destruct (Hsecond busy Hin) as [Hset Hdup].
  repeat split; assumption.
Defined.

Lemma try_block_missing_code env w :
  truthy (urlParams_get (search env) "code") = false ->
  start (finally (try_catch callback_try_block (fun error => Throw error))
           (do (WriteProcessing false))) env w
  = Settled (Thrown (Error missing_code_or_state)) (with_flag false w).
Proof.
  intros Hcode. unfold callback_try_block. simpl. rewrite Hcode. reflexivity.
Qed.

(** C7 (as amended).  A call of [handleOidcCallback] on a URL without a
    (non-empty) [code] parameter always fails at once, without suspending
    and without sending anything: the world after the call is the world
    before it.  The error is 'Invalid authorization response. Missing code
    or state parameter.' when the call runs in a browser and no other
    callback is being processed; it is 'OIDC authentication is not enabled'
    outside a browser, and 'OIDC callback is already being processed' when
    the flag is set, since both guards come before the look at the URL. *)
Theorem missing_code env w :
  truthy (urlParams_get (search env) "code") = false ->
  start handleOidcCallback env w =
  Settled
    (Thrown
       (Error
          (if negb (has_window env) then not_enabled
           else if isProcessingCallback w then already_processing
           else missing_code_or_state)))
    w
  /\ run handleOidcCallback env w
     = (Thrown
          (Error
             (if negb (has_window env) then not_enabled
              else if isProcessingCallback w then already_processing
              else missing_code_or_state)),
        w)
  /\ suspensions handleOidcCallback env w = [].
Proof.
  intros Hcode.
  assert (Hstart :
    start handleOidcCallback env w =
    Settled
      (Thrown
         (Error
            (if negb (has_window env) then not_enabled
             else if isProcessingCallback w then already_processing
             else missing_code_or_state)))
      w).
  { destruct (has_window env) eqn:Hwin; cbn [negb].
    2:{ apply handleOidcCallback_no_window, Hwin. }
    destruct (isProcessingCallback w) eqn:Hflag.
    { apply handleOidcCallback_busy; assumption. }
    destruct (handleOidcCallback_enters env w Hwin Hflag) as (_ & -> & _).
    rewrite (try_block_missing_code _ _ Hcode), (with_flag_restored _ Hflag).
    reflexivity. }
  split; [exact Hstart|]. split.
  - rewrite run_start, Hstart. reflexivity.
  - exact (settled_no_suspension _ _ _ _ _ Hstart).
Qed.

Lemma missing_code_witness :
  run handleOidcCallback Sample.offline Sample.fresh
  = (Thrown (Error "Invalid authorization response. Missing code or state parameter."),
     Sample.fresh)
  /\ network Sample.fresh = [].
Proof.
  destruct (missing_code Sample.offline Sample.fresh eq_refl)
    as (_ & Hrun & _).
  split; [exact Hrun | reflexivity].
Defined.

(** C7 as stated does not hold: while another callback is being resolved,
    a call on a URL without [code] fails with the duplicate-callback error,
    not with the missing-code one. *)
Lemma missing_code_while_resolving :
  urlParams_get (search Sample.offline) "code" = None
  /\ run handleOidcCallback Sample.offline Sample.resolving
     = (Thrown (Error "OIDC callback is already being processed"),
        Sample.resolving)
  /\ Error "OIDC callback is already being processed"
     <> Error missing_code_or_state.
Proof.
  split; [reflexivity|]. split; [reflexivity|]. intros H. inversion H.
Qed.

(** *** The exchange with the identity provider and its fallback *)

Lemma includes_needs_message m :
  truthy (Some m) && includes m "Invalid token" = includes m "Invalid token".
Proof. destruct m; reflexivity. Qed.

Lemma truthy_Some s : s <> "" -> truthy (Some s) = true.
Proof.
  intros Hs. simpl. destruct (String.eqb_spec s ""); [contradiction|reflexivity].
Qed.

Lemma run_await {A X} (c : Net X) (f : X -> Prog A) env w :
  run (bind (await c) f) env w =
  run (f (answer c env (network w))) env
    (arrives c env (answer c env (network w)) (in_flight c env w)).
Proof. reflexivity. Qed.

(** The exchange leaves the store's own alone and adds one call. *)
Lemma exchanged_session env w :
  session_untouched w (exchanged env w)
  /\ isProcessingCallback (exchanged env w) = isProcessingCallback w
  /\ network (exchanged env w) = network w ++ [IdpExchange]
  /\ logouts_started (exchanged env w) = logouts_started w.
Proof. apply (answered_session SigninRedirectCallback). Qed.

Lemma network_exchanged env w :
  network (exchanged env w) = network w ++ [IdpExchange].
Proof. apply exchanged_session. Qed.

Lemma run_signin_or_fallback code state env w :
  run (signin_or_fallback code state) env w =
  (match idp env (network w) with
   | inr user => Returned user
   | inl tokenError =>
       if includes (message tokenError) "Invalid token"
       then Returned (fallback_user (default "" code) (default "" state))
       else Thrown tokenError
   end, exchanged env w).
Proof.
  unfold signin_or_fallback, exchanged. rewrite run_try_catch, run_await.
  change (answer SigninRedirectCallback env (network w))
    with (idp env (network w)).
  generalize (arrives SigninRedirectCallback env (idp env (network w))
                (in_flight SigninRedirectCallback env w)).
  intros w1.
  destruct (idp env (network w)) as [tokenError|user]; [|reflexivity].
  cbn [run]. rewrite includes_needs_message.
  destruct (includes (message tokenError) "Invalid token"); reflexivity.
Qed.

(** The call, past its guards, in terms of its two requests. *)
Lemma handleOidcCallback_unfold env w code state :
  has_window env = true -> isProcessingCallback w = false ->
  urlParams_get (search env) "code" = Some code -> code <> "" ->
  urlParams_get (search env) "state" = Some state -> state <> "" ->
  run handleOidcCallback env w =
  match run (signin_or_fallback (Some code) (Some state)) env
            (with_flag true w) with
  | (Returned user, w1) =>
      match run (api_post "/auth/openid/verify-token"
                   (Params (requestParams user (Some code) (Some state))))
                env w1 with
      | (Returned response, w2) =>
          (match response_data response with
           | Undefined => Thrown TypeError
           | Tokens access refresh =>
               Returned {| cb_user := user; cb_access_token := access;
                           cb_refresh_token := refresh |}
           | Profile _ | Empty =>
               Returned {| cb_user := user; cb_access_token := None;
                           cb_refresh_token := None |}
           end, with_flag false w2)
      | (Thrown e, w2) => (Thrown e, with_flag false w2)
      end
  | (Thrown e, w1) => (Thrown e, with_flag false w1)
  end.
Proof.
  intros Hwin Hflag Hcode Hc Hstate Hs.
  destruct (handleOidcCallback_enters env w Hwin Hflag) as (-> & _).
  rewrite run_finally, run_try_catch. unfold callback_try_block.
  rewrite run_bind. simpl (run (do _) _ _). rewrite Hcode.
  rewrite run_bind. simpl (run (do _) _ _). rewrite Hstate.
  rewrite (truthy_Some _ Hc), (truthy_Some _ Hs). simpl orb. cbv iota.
  rewrite run_bind.
  destruct (run (signin_or_fallback _ _) env _) as [[user|e] w1];
    [|reflexivity].
  rewrite run_bind.
  destruct (run (api_post _ _) env w1) as [[response|e] w2]; [|reflexivity].
  rewrite run_bind. unfold data_tokens.
  destruct (response_data response); reflexivity.
Qed.

Lemma fallback_requestParams code state :
  code <> "" -> state <> "" ->
  requestParams (fallback_user code state) (Some code) (Some state)
  = <["state" := state]> (<["code" := code]> {[ "access_token" := code ]}).
Proof.
  intros Hc Hs. unfold requestParams. simpl id_token.
  replace (truthy (Some "")) with false by reflexivity.
  rewrite (truthy_Some _ Hc). simpl.
  destruct (String.eqb_spec state ""); [contradiction|reflexivity].
Qed.

(** Once a user object is at hand, the verification request is the next
    thing sent, and the user object is what a successful call returns. *)
Lemma verification_follows env w1 user code state :
  let outcome :=
    match run (api_post "/auth/openid/verify-token"
                 (Params (requestParams user code state))) env w1 with
    | (Returned response, w2) =>
        (match response_data response with
         | Undefined => Thrown TypeError
         | Tokens access refresh =>
             Returned {| cb_user := user; cb_access_token := access;
                         cb_refresh_token := refresh |}
         | Profile _ | Empty =>
             Returned {| cb_user := user; cb_access_token := None;
                         cb_refresh_token := None |}
         end, with_flag false w2)
    | (Thrown e, w2) => (Thrown e, with_flag false w2)
    end in
  (exists rest,
     network outcome.2 = network w1 ++ verify_token user code state :: rest)
  /\ (forall result, outcome.1 = Returned result -> cb_user result = user).
Proof.
  destruct (api_same_session env w1
              {| method := POST; url := "/auth/openid/verify-token";
                 data := Params (requestParams user code state);
                 _retry := false |}) as [_ [rest Hnet]].
  fold (api_post "/auth/openid/verify-token"
          (Params (requestParams user code state))) in Hnet.
  destruct (run (api_post _ _) env w1) as [[response|e] w2]; simpl in *.
  - split; [eauto|]. intros result.
    destruct (response_data response); intros H; inversion H; reflexivity.
  - split; [eauto|]. intros result H. inversion H.
Qed.

(** C6.  A call of [handleOidcCallback] that is past its guards, on a URL
    with a code and a state.  When the exchange with the identity provider
    succeeds, its user object is verified with the backend and returned.
    When the exchange fails with a message that includes 'Invalid token',
    the fallback user object is built (the code as access token, the
    incoming state, an empty id token), the verification request that
    follows carries [access_token], [code] and [state] and no [id_token],
    and that user object is what a successful call returns.  When the
    exchange fails with any other error, that error is thrown again and
    nothing is sent to the backend. *)
Theorem oidc_fallback env w code state :
  has_window env = true -> isProcessingCallback w = false ->
  urlParams_get (search env) "code" = Some code -> code <> "" ->
  urlParams_get (search env) "state" = Some state -> state <> "" ->
  let outcome := run handleOidcCallback env w in
  let proceeds_with user :=
    (exists rest,
       network outcome.2 =
       network w ++ IdpExchange
                 :: verify_token user (Some code) (Some state) :: rest)
    /\ (forall result, outcome.1 = Returned result -> cb_user result = user) in
  match idp env (network w) with
  | inr user => proceeds_with user
  | inl tokenError =>
      if includes (message tokenError) "Invalid token" then
        proceeds_with (fallback_user code state)
        /\ oidc_access_token (fallback_user code state) = code
        /\ oidc_state (fallback_user code state) = Some state
        /\ truthy (id_token (fallback_user code state)) = false
        /\ requestParams (fallback_user code state) (Some code) (Some state)
           = <["state" := state]>
               (<["code" := code]> {[ "access_token" := code ]})
      else
        outcome.1 = Thrown tokenError
        /\ network outcome.2 = network w ++ [IdpExchange]
  end.
Proof.
  intros Hwin Hflag Hcode Hc Hstate Hs outcome proceeds_with.
  subst proceeds_with outcome.
  rewrite (handleOidcCallback_unfold env w code state) by assumption.
  rewrite run_signin_or_fallback. simpl network.
  destruct (idp env (network w)) as [tokenError|user].
  - destruct (includes (message tokenError) "Invalid token").
    + split; [|repeat split; auto using fallback_requestParams].
      pose proof (verification_follows env
                    (exchanged env (with_flag true w))
                    (fallback_user code state) (Some code) (Some state))
        as [[rest Hnet] Huser].
      split; [|exact Huser].
      exists rest. etransitivity; [exact Hnet|].
      rewrite network_exchanged. simpl. rewrite <- app_assoc. reflexivity.
    + split; [reflexivity|]. simpl. rewrite network_exchanged. reflexivity.
  - pose proof (verification_follows env
                  (exchanged env (with_flag true w))
                  user (Some code) (Some state))
      as [[rest Hnet] Huser].
    split; [|exact Huser].
    exists rest. etransitivity; [exact Hnet|].
    rewrite network_exchanged. simpl. rewrite <- app_assoc. reflexivity.
Qed.

Lemma oidc_fallback_witness :
  let env := Sample.browser Sample.u0 (inl (Error "Invalid token format")) in
  let outcome := run handleOidcCallback env Sample.fresh in
  network outcome.2 =
    [IdpExchange;
     Http POST "/auth/openid/verify-token"
       (Params (<["state" := "xyz"]>
                  (<["code" := "abc"]> {[ "access_token" := "abc" ]})))]
  /\ outcome.1 =
       Returned {| cb_user := fallback_user "abc" "xyz";
                   cb_access_token := Some "app-access";
                   cb_refresh_token := Some "app-refresh" |}.
Proof.
  intros env outcome.
  pose proof (oidc_fallback env Sample.fresh "abc" "xyz"
                eq_refl eq_refl eq_refl ltac:(discriminate)
                eq_refl ltac:(discriminate)) as H.
  simpl in H. destruct H as [[[rest Hnet] Huser] _].
  split; reflexivity.
Defined.

(** * Further properties of the store *)

(** ** What a request through the API client can do *)

(** X1.  Whatever the backend answers, a request through the API client
    leaves the session, the callback flag and both storages alone and sends
    the request itself first.  After it comes nothing, or one refresh call,
    or one refresh call and one replay of the request; the
    authentication-failed callback runs exactly in the middle case, that of
    a refresh that was sent and not followed by a replay, and the request
    then ends in a rejection. *)
Theorem api_footprint env w config :
  let outcome := run (api config) env w in
  same_session w outcome.2
  /\ exists extra,
       network outcome.2 = network w ++ wire config :: extra
       /\ (extra = []
           /\ logouts_started outcome.2 = logouts_started w
           \/ extra = [wire refresh_config]
              /\ logouts_started outcome.2 = S (logouts_started w)
              /\ (exists e, outcome.1 = Thrown e)
           \/ extra = [wire refresh_config; wire config]
              /\ logouts_started outcome.2 = logouts_started w).
Proof.
  cbv zeta.
  destruct (http env (network w) (wire config)) as [rejection|response] eqn:H.
  2:{ rewrite (api_fulfilled _ _ _ _ H). simpl. split; [repeat split|].
      exists nil. auto. }
  destruct (rej_has_config rejection
            && status_is (axios_error rejection config) 401
            && negb (_retry config)) eqn:Hguard.
  2:{ rewrite (api_passes_through _ _ _ _ H Hguard). simpl.
      split; [repeat split|]. exists nil. auto. }
  destruct (http env (network w ++ [wire config]) (wire refresh_config))
    as [refreshRejection|refreshed] eqn:Hrefresh.
  - rewrite (api_refresh_failed _ _ _ _ _ H Hguard Hrefresh). simpl.
    split; [repeat split|]. exists [wire refresh_config].
    split; [rewrite <- app_assoc; reflexivity|]. right. left. eauto.
  - rewrite (api_replayed _ _ _ _ _ H Hguard Hrefresh). simpl.
    split; [repeat split|]. exists [wire refresh_config; wire config].
    split; [rewrite <- !app_assoc; reflexivity|]. right. right. auto.
Qed.

(** ** The body of the verification request *)

(** X2.  [requestParams] always carries the user's access token.  It
    carries an [id_token] exactly when the user has a non-empty one, and a
    [code] exactly when the user has none and the URL had a non-empty code;
    [state] comes with [code]; so [id_token] and [code] never go together,
    and there is no other field. *)
Theorem requestParams_shape user code state :
  let params := requestParams user code state in
  params !! "access_token" = Some (oidc_access_token user)
  /\ (is_Some (params !! "id_token") <-> truthy (id_token user) = true)
  /\ (is_Some (params !! "code")
      <-> truthy (id_token user) = false /\ truthy code = true)
  /\ (is_Some (params !! "state") <-> is_Some (params !! "code"))
  /\ ~ (is_Some (params !! "id_token") /\ is_Some (params !! "code"))
  /\ dom params ⊆ {[ "access_token"; "id_token"; "code"; "state" ]}.
Proof.
  cbv zeta. unfold requestParams.
  pose proof (@is_Some_None string) as Hnone.
  assert (Hsome : forall x : string, is_Some (Some x)) by eauto.
  destruct (truthy (id_token user)) eqn:Hid; simpl;
    [|destruct (truthy code) eqn:Hcode; simpl];
    rewrite ?dom_insert_L, ?dom_singleton_L;
    repeat match goal with
      | |- context [?m !! ?k] =>
          let o := eval vm_compute in (m !! k) in
          change (m !! k) with o
      end;
    (split; [reflexivity|]); split_and!; try tauto;
    try solve [intuition congruence].
  all: try solve [split; intros; first [apply Hsome | tauto]].
  all: intros x; rewrite !elem_of_union, !elem_of_singleton; tauto.
Qed.

(** ** Programs that leave the session alone *)

Lemma leaves_session_bind {A B} (p : Prog A) (f : A -> Prog B) :
  leaves_session p -> (forall a, leaves_session (f a)) ->
  leaves_session (bind p f).
Proof.
  intros Hp Hf. induction p as [a|e|X c k IH|X c k IH]; simpl in *; auto.
  destruct Hp as [Hc Hk]. split; auto.
Qed.

Lemma leaves_session_try_catch {A} (p : Prog A) handler :
  leaves_session p -> (forall e, leaves_session (handler e)) ->
  leaves_session (try_catch p handler).
Proof.
  intros Hp Hh. induction p as [a|e|X c k IH|X c k IH]; simpl in *; auto.
  destruct Hp as [Hc Hk]. split; auto.
Qed.

Lemma leaves_session_finally {A} (p : Prog A) cleanup :
  leaves_session p -> leaves_session cleanup ->
  leaves_session (finally p cleanup).
Proof.
  intros Hp Hc. induction p as [a|e|X c k IH|X c k IH]; simpl in *; auto.
  - apply leaves_session_bind; simpl; auto.
  - apply leaves_session_bind; simpl; auto.
  - destruct Hp as [Hw Hk]. split; auto.
Qed.

Lemma leaves_session_client depth config :
  leaves_session (client_upto depth (do StartLogout) config).
Proof.
  revert config. induction depth as [|depth IH]; intros config;
    simpl; intros [rejection|response]; simpl; auto;
    unfold onRejected; simpl;
    destruct (rej_has_config rejection); simpl; auto;
    destruct (_ && _); simpl; auto;
    intros [refreshError|refreshed]; simpl; auto.
Qed.

Lemma leaves_session_api config : leaves_session (api config).
Proof. apply leaves_session_client. Qed.

Lemma leaves_session_handleOidcCallback : leaves_session handleOidcCallback.
Proof.
  unfold handleOidcCallback.
  apply leaves_session_bind.
  { unfold getUserManager. simpl. split; [reflexivity|].
    intros []; simpl; auto. }
  intros manager. destruct (negb manager); [simpl; auto|].
  apply leaves_session_bind; [simpl; auto|]. intros processing.
  destruct processing; [simpl; auto|].
  apply leaves_session_bind; [simpl; auto|]. intros _.
  apply leaves_session_finally; [|simpl; auto].
  apply leaves_session_try_catch; [|simpl; auto].
  unfold callback_try_block.
  apply leaves_session_bind; [simpl; auto|]. intros code.
  apply leaves_session_bind; [simpl; auto|]. intros state.
  destruct (negb (truthy code) || negb (truthy state)); [simpl; auto|].
  apply leaves_session_bind.
  - unfold signin_or_fallback. simpl. intros [e|user]; simpl; auto.
    destruct (_ && _); simpl; auto.
  - intros user. apply leaves_session_bind; [apply leaves_session_api|].
    intros response. unfold data_tokens.
    destruct (response_data response); simpl; auto.
Qed.

Lemma exec_leaves_session {X} (c : Cmd X) env w :
  writes_session c = false ->
  store (exec c env w).2 = store w
  /\ localStorage (exec c env w).2 = localStorage w
  /\ sessionStorage (exec c env w).2 = sessionStorage w.
Proof. destruct c; simpl; try discriminate; auto. Qed.

Lemma exec_session_untouched {X} (c : Cmd X) env w :
  writes_session c = false -> session_untouched w (exec c env w).2.
Proof.
  intros Hc. destruct (exec_leaves_session c env w Hc) as (E1 & E2 & E3).
  split; [exact E1|]. split; [exact E3|]. intros key _. rewrite E2.
  reflexivity.
Qed.

Lemma run_leaves_session {A} (p : Prog A) env w :
  leaves_session p -> session_untouched w (run p env w).2.
Proof.
  revert w. induction p as [a|e|X c k IH|X c k IH]; intros w Hp; simpl in *.
  - apply session_untouched_refl.
  - apply session_untouched_refl.
  - destruct Hp as [Hc Hk].
    pose proof (exec_session_untouched c env w Hc) as E.
    destruct (exec c env w) as [x w']. simpl in *.
    exact (session_untouched_trans _ _ _ E (IH _ _ (Hk _))).
  - refine (session_untouched_trans _ _ _ _ (IH _ _ (Hp _))).
    apply (answered_session c env (answer c env (network w)) w).
Qed.

Lemma suspensions_leave_session {A} (p : Prog A) env w busy :
  leaves_session p -> busy ∈ suspensions p env w ->
  session_untouched w busy.
Proof.
  revert w. induction p as [a|e|X c k IH|X c k IH]; intros w Hp Hbusy;
    simpl in *.
  - inversion Hbusy.
  - inversion Hbusy.
  - destruct Hp as [Hc Hk].
    pose proof (exec_session_untouched c env w Hc) as E.
    destruct (exec c env w) as [x w']. simpl in *.
    exact (session_untouched_trans _ _ _ E (IH _ _ (Hk _) Hbusy)).
  - apply elem_of_cons in Hbusy as [->|Hbusy].
    + apply (in_flight_session c env w).
    + refine (session_untouched_trans _ _ _ _ (IH _ _ (Hp _) Hbusy)).
      apply (answered_session c env (answer c env (network w)) w).
Qed.

(** X3.  [handleOidcCallback] never writes to the session: whatever the
    browser, the identity provider and the backend do, the state of the
    store and its persisted projection are the same after the call, and at
    every moment one of its requests is in flight, as before it.  So is
    [sessionStorage], and so is every entry of [localStorage] but those
    that oidc-client-ts keeps for itself under the prefix ['oidc.'] (the
    sign-in state it removes, the user it stores).  In particular a
    successful callback does not by itself make the session
    authenticated. *)
Theorem handleOidcCallback_leaves_session env w :
  let unchanged w' :=
    store w' = store w
    /\ persisted env w' = persisted env w
    /\ sessionStorage w' = sessionStorage w
    /\ forall key, oidc_entry key = false ->
         localStorage w' !! key = localStorage w !! key in
  unchanged (run handleOidcCallback env w).2
  /\ forall busy,
       busy ∈ suspensions handleOidcCallback env w -> unchanged busy.
Proof.
  assert (H : forall w', session_untouched w w' ->
    store w' = store w
    /\ persisted env w' = persisted env w
    /\ sessionStorage w' = sessionStorage w
    /\ forall key, oidc_entry key = false ->
         localStorage w' !! key = localStorage w !! key).
  { intros w' Hw'.
    destruct (session_untouched_persisted env _ _ Hw') as [Hp _].
    destruct Hw' as (Hs & Hss & Hl). auto. }
  cbv zeta. split.
  - apply H, run_leaves_session, leaves_session_handleOidcCallback.
  - intros busy Hbusy.
    apply H, (suspensions_leave_session _ _ _ _
                leaves_session_handleOidcCallback Hbusy).
Qed.

(** The library's entries do change: the callback of a sign-in that the
    identity provider accepts takes the sign-in state out of
    [localStorage] and puts the user there, next to the projection of a
    session that is still signed out. *)
Lemma handleOidcCallback_leaves_session_witness :
  let env := Sample.browser Sample.u0 (inr Sample.external_user) in
  let w :=
    with_localStorage
      {[ "oidc.xyz" := Raw "{}"; "auth-storage" := signed_out_projection ]}
      Sample.fresh in
  let w' := (run handleOidcCallback env w).2 in
  store w' = initial_state
  /\ persisted env w' = Some signed_out_projection
  /\ localStorage w' !! "oidc.xyz" = None
  /\ localStorage w' !! "oidc.user:https://idp.example.org:link-client"
     = Some (StoredUser Sample.external_user).
Proof.
  intros env w w'.
  destruct (handleOidcCallback_leaves_session env w)
    as [(Hstore & Hpersisted & _) _].
  split; [exact Hstore|]. split; [exact Hpersisted|].
  split; vm_compute; reflexivity.
Defined.

Lemma suspensions_try_catch {A} (p : Prog A) handler env w :
  suspensions (try_catch p handler) env w =
  suspensions p env w ++
  match run p env w with
  | (Returned _, _) => []
  | (Thrown e, w') => suspensions (handler e) env w'
  end.
Proof.
  revert w. induction p as [a|e|X c k IH|X c k IH]; intros w; simpl; auto.
  - destruct (exec c env w) as [x w']. apply IH.
  - rewrite IH. reflexivity.
Qed.

(** The requests of [loadUserProfile] are those of its profile request. *)
Lemma suspensions_loadUserProfile env w :
  suspensions loadUserProfile env w
  = suspensions (api_get "/auth/me/info") env w.
Proof.
  unfold loadUserProfile. rewrite suspensions_try_catch, suspensions_bind.
  destruct (run (api_get _) env w) as [[response|e] w1] eqn:Hget.
  - rewrite run_bind, Hget. unfold data_data.
    destruct (response_data response); simpl; rewrite !app_nil_r; reflexivity.
  - rewrite run_bind, Hget. simpl. rewrite !app_nil_r. reflexivity.
Qed.

(** ** [login] while its requests are in flight *)

(** X4.  At every moment a request of [login] is in flight (the login
    request, the profile request, or a refresh or replay made for either),
    [isLoading] is [true] and [error] is [null], while [user] and
    [isAuthenticated] are still what they were before the call. *)
Theorem login_in_flight env w username password busy :
  busy ∈ suspensions (login username password) env w ->
  store busy =
  {| user := user (store w); isAuthenticated := isAuthenticated (store w);
     isLoading := true; error := None |}.
Proof.
  unfold login. rewrite suspensions_bind, run_set. simpl (suspensions (set _) _ _).
  rewrite app_nil_l, suspensions_try_catch, suspensions_bind.
  set (w0 := persist env _).
  assert (Hw0 : store w0 =
    {| user := user (store w); isAuthenticated := isAuthenticated (store w);
       isLoading := true; error := None |}).
  { unfold w0. rewrite store_persist. reflexivity. }
  pose proof (run_leaves_session
                (api_post "/auth/login" (Credentials username password))
                env w0 (leaves_session_api _)) as (Hpost & _).
  rewrite run_bind.
  destruct (run (api_post _ _) env w0) as [[response|e] w1] eqn:Hrun;
    simpl in Hpost.
  - rewrite suspensions_bind, suspensions_loadUserProfile.
    destruct (loadUserProfile_returns env w1) as (u & w2 & Hload & _).
    rewrite run_bind, Hload.
    intros Hbusy. rewrite !elem_of_app in Hbusy.
    destruct Hbusy as [[Hbusy|[Hbusy|Hbusy]]|Hbusy].
    + rewrite <- Hw0.
      apply (suspensions_leave_session _ _ _ _ (leaves_session_api _) Hbusy).
    + rewrite <- Hw0, <- Hpost.
      apply (suspensions_leave_session _ _ _ _ (leaves_session_api _) Hbusy).
    + exfalso. destruct (no_web_access u); simpl in Hbusy; inversion Hbusy.
    + exfalso. destruct (no_web_access u); simpl in Hbusy; inversion Hbusy.
  - intros Hbusy. rewrite !elem_of_app in Hbusy.
    destruct Hbusy as [[Hbusy|Hbusy]|Hbusy].
    + rewrite <- Hw0.
      apply (suspensions_leave_session _ _ _ _ (leaves_session_api _) Hbusy).
    + inversion Hbusy.
    + simpl in Hbusy. inversion Hbusy.
Qed.

Lemma login_in_flight_witness :
  let env := Sample.browser Sample.u0 (inr Sample.external_user) in
  let busy :=
    in_flight
      (Send {| method := POST; url := "/auth/login";
               data := Credentials "u0" "xxxx"; _retry := false |})
      env (login_begun env Sample.signed_in) in
  busy ∈ suspensions (login "u0" "xxxx") env Sample.signed_in
  /\ isLoading (store busy) = true
  /\ user (store busy) = present Sample.u0.
Proof.
  intros env busy.
  assert (Hbusy : busy ∈ suspensions (login "u0" "xxxx") env Sample.signed_in)
    by apply list_elem_of_here.
  split; [exact Hbusy|].
  rewrite (login_in_flight env Sample.signed_in "u0" "xxxx" busy Hbusy).
  split; reflexivity.
Defined.

(** ** [getProfile] and [loadUserProfile] *)

(** X5.  [getProfile] never throws and never touches [isLoading].  It
    returns a user exactly when the profile request was answered with one;
    the session is then authenticated with that user and [error] is
    cleared.  In every other case (rejection, no user in the answer) it
    returns [null], never [undefined], the session is signed out ([user =
    null], [isAuthenticated = false]) and [error] is left as it was. *)
Theorem getProfile_total env w :
  exists r w',
    run getProfile env w = (Returned r, w')
    /\ isLoading (store w') = isLoading (store w)
    /\ match r with
       | present u =>
           user (store w') = present u
           /\ isAuthenticated (store w') = true
           /\ error (store w') = None
           /\ exists response w1,
                run (api_get "/auth/me/info") env w = (Returned response, w1)
                /\ response_data response = Profile (present u)
       | null =>
           user (store w') = null
           /\ isAuthenticated (store w') = false
           /\ error (store w') = error (store w)
           /\ forall response w1 u,
                run (api_get "/auth/me/info") env w = (Returned response, w1) ->
                response_data response <> Profile (present u)
       | undefined => False
       end.
Proof.
  pose proof (run_leaves_session (api_get "/auth/me/info") env w
                (leaves_session_api _)) as (Hstore & _).
  unfold getProfile. rewrite run_try_catch, run_bind.
  destruct (run (api_get _) env w) as [[response|e] w1] eqn:Hget;
    simpl in Hstore.
  - rewrite run_bind. unfold data_data.
    destruct (response_data response) as [|[| |u]| |] eqn:Hdata; simpl;
      do 2 eexists; (split; [reflexivity|]); rewrite store_persist; simpl;
      rewrite Hstore; repeat split; eauto;
      intros response' w1' u' Heq; injection Heq as <- _; congruence.
  - simpl. do 2 eexists. split; [reflexivity|]. rewrite store_persist.
    simpl. rewrite Hstore. repeat split. intros ? ? ? Heq. discriminate Heq.
Qed.

(** X6.  When the profile request is answered with a profile,
    [loadUserProfile] returns it and replaces [user] wholesale, also by
    [null] (or [undefined]) when the answer holds no user;
    [isAuthenticated], [isLoading] and [error] stay as they were, and the
    new projection, in JSON, is what the storage in use holds afterwards. *)
Theorem loadUserProfile_success env w response w1 u :
  run (api_get "/auth/me/info") env w = (Returned response, w1) ->
  response_data response = Profile u ->
  exists w',
    run loadUserProfile env w = (Returned u, w')
    /\ store w' =
       {| user := u; isAuthenticated := isAuthenticated (store w);
          isLoading := isLoading (store w); error := error (store w) |}
    /\ persisted env w' =
       match storage env with
       | NoStorage => None
       | _ => Some (Persisted (JSON_stringify (partialize (store w')))
                      persist_version)
       end.
Proof.
  intros Hget Hdata.
  pose proof (run_leaves_session (api_get "/auth/me/info") env w
                (leaves_session_api _)) as (Hstore & _).
  rewrite Hget in Hstore. simpl in Hstore.
  rewrite (loadUserProfile_fulfilled _ _ _ _ Hget), Hdata.
  eexists. split; [reflexivity|].
  rewrite persisted_after_persist, store_persist. simpl. rewrite Hstore.
  split; reflexivity.
Qed.

Lemma loadUserProfile_success_witness :
  exists w',
    run loadUserProfile
      (Sample.browser Sample.guest (inr Sample.external_user))
      Sample.signed_in = (Returned (present Sample.guest), w')
    /\ store w' =
       {| user := present Sample.guest; isAuthenticated := true;
          isLoading := false; error := None |}.
Proof.
  destruct (loadUserProfile_success
              (Sample.browser Sample.guest (inr Sample.external_user))
              Sample.signed_in _ _ _ eq_refl eq_refl)
    as (w' & Hrun & Hstore & _).
  exists w'. split; [exact Hrun | exact Hstore].
Defined.

(** ** [login] when the profile cannot be loaded *)

(** X7.  When the server accepts the credentials but the profile request
    that follows is rejected, [login] returns [false] and reports
    ['Unauthorized'], not ['LoginFailed'], with [user = null],
    [isAuthenticated = false] and [isLoading = false]. *)
Theorem login_profile_unavailable env w username password response w1 e w2 :
  run (api_post "/auth/login" (Credentials username password)) env
      (login_begun env w) = (Returned response, w1) ->
  run (api_get "/auth/me/info") env w1 = (Thrown e, w2) ->
  exists w',
    run (login username password) env w = (Returned false, w')
    /\ error (store w') = Some AUTH_ERRORS.UNAUTHORIZED
    /\ user (store w') = null
    /\ isAuthenticated (store w') = false
    /\ isLoading (store w') = false.
Proof.
  intros Hlogin Hget.
  rewrite login_unfold, Hlogin, (loadUserProfile_rejected _ _ _ _ Hget).
  simpl no_web_access. cbv iota.
  eexists. split; [reflexivity|]. rewrite store_persist. repeat split.
Qed.

Lemma login_profile_unavailable_witness :
  exists w',
    run (login "u0" "xxxx") Scenario.profile_down Sample.fresh
      = (Returned false, w')
    /\ error (store w') = Some "Unauthorized"
    /\ user (store w') = null
    /\ isAuthenticated (store w') = false
    /\ isLoading (store w') = false.
Proof.
  exact (login_profile_unavailable Scenario.profile_down Sample.fresh
           "u0" "xxxx" _ _ _ _ eq_refl eq_refl).
Defined.

(** ** What [logout] does to the storages *)

Lemma network_persist env w : network (persist env w) = network w.
Proof. unfold persist. destruct (storage env); reflexivity. Qed.

(** X9.  [logout] sends the logout request before anything else, leaves
    [isLoading] as it was, and in a browser removes ['router-last-location']
    and ['auth-storage'] from [sessionStorage].  Every other key of
    [sessionStorage] and every key of [localStorage] other than
    ['auth-storage'] is left as it was; outside a browser neither storage
    changes. *)
Theorem logout_frame env w :
  let w' := (run logout env w).2 in
  isLoading (store w') = isLoading (store w)
  /\ (exists rest,
        network w' = network w ++ Http POST "/auth/logout" (Params ∅) :: rest)
  /\ (forall key, key <> "auth-storage" ->
        localStorage w' !! key = localStorage w !! key)
  /\ (forall key, key <> "auth-storage" -> key <> "router-last-location" ->
        sessionStorage w' !! key = sessionStorage w !! key)
  /\ (if has_window env
      then sessionStorage w' !! "router-last-location" = None
           /\ sessionStorage w' !! "auth-storage" = None
      else localStorage w' = localStorage w
           /\ sessionStorage w' = sessionStorage w).
Proof.
  cbv zeta.
  destruct (logout_storages env w) as (Hlocal & Hsession & _).
  rewrite logout_store, Hlocal, Hsession. split; [reflexivity|]. split.
  { rewrite logout_unfold. cbv zeta.
    destruct (api_same_session env w
                {| method := POST; url := "/auth/logout"; data := Params ∅;
                   _retry := false |}) as [_ [rest Hnet]].
    fold (api_post "/auth/logout" (Params ∅)) in Hnet.
    exists rest. etransitivity; [|exact Hnet].
    destruct (run (api_post _ _) env w) as [r w1].
    destruct (has_window env); simpl; rewrite network_persist; reflexivity. }
  unfold storage.
  destruct (has_window env), (localStorage_works env); simpl;
    repeat split; auto; intros; unfold persist_name;
    rewrite ?lookup_delete, ?lookup_insert; repeat case_decide; congruence.
Qed.

(** ** Logouts that start logouts *)

Lemma logouts_persist env w :
  logouts_started (persist env w) = logouts_started w.
Proof. unfold persist. destruct (storage env); reflexivity. Qed.

Lemma logout_when_session_gone env w :
  session_gone env ->
  logouts_started (run logout env w).2 = S (logouts_started w)
  /\ network (run logout env w).2 =
       network w ++ [Http POST "/auth/logout" (Params ∅); wire refresh_config].
Proof.
  intros Hgone.
  destruct (Hgone (network w)) as [(rejection & Hrej & Hcfg & r & Hr & H401) _].
  destruct (Hgone (network w ++ [Http POST "/auth/logout" (Params ∅)]))
    as [_ (refreshRejection & Hrefresh)].
  rewrite logout_unfold. cbv zeta. unfold api_post.
  rewrite (api_refresh_failed env w
             {| method := POST; url := "/auth/logout"; data := Params ∅;
                _retry := false |} rejection refreshRejection Hrej).
  - destruct (has_window env); simpl;
      rewrite logouts_persist, network_persist; simpl;
      rewrite <- app_assoc; auto.
  - rewrite Hcfg. unfold status_is. simpl. rewrite Hr, H401. reflexivity.
  - exact Hrefresh.
Qed.

(** X10.  When the backend answers 401 to the logout request and rejects
    the refresh call, every [logout] makes these two calls and its own
    request makes the interceptor start another logout.  So once one logout
    has been started by the interceptor, running the started logouts never
    uses them up: after any number of rounds as many are waiting as at the
    outset, and each round has sent two more requests. *)
Theorem logout_restarts_itself env w n :
  session_gone env -> 0 < logouts_started w ->
  logouts_started (Nat.iter n (run_started_logout env) w) = logouts_started w
  /\ length (network (Nat.iter n (run_started_logout env) w))
     = length (network w) + 2 * n.
Proof.
  intros Hgone Hpos. induction n as [|n [IHcount IHnet]]; simpl.
  - split; [reflexivity | lia].
  - set (w' := Nat.iter n (run_started_logout env) w) in *.
    unfold run_started_logout.
    destruct (logouts_started w') as [|m] eqn:Hm; [lia|].
    match goal with
    | |- context [run logout env ?w0] =>
        destruct (logout_when_session_gone env w0 Hgone) as [Hc Hn]
    end.
    rewrite Hc, Hn. simpl. rewrite length_app. simpl. split; lia.
Qed.

Lemma logout_restarts_itself_witness :
  let w := (run loadUserProfile (Sample.expired false) Sample.signed_in).2 in
  logouts_started w = 1
  /\ logouts_started (Nat.iter 3 (run_started_logout (Sample.expired false)) w)
     = 1
  /\ length (network (Nat.iter 3 (run_started_logout (Sample.expired false)) w))
     = 8.
Proof.
  intros w.
  assert (Hgone : session_gone (Sample.expired false)).
  { intros before. split.
    - eexists. split; [reflexivity|]. split; [reflexivity|].
      eexists. split; reflexivity.
    - eexists. reflexivity. }
  destruct (logout_restarts_itself (Sample.expired false) w 3 Hgone)
    as [Hcount Hnet]; [simpl; lia|].
  split; [reflexivity|]. split; [exact Hcount | exact Hnet].
Defined.

(** ** When the federated callback is available, and when it succeeds *)

Lemma truthy_true s : truthy s = true -> exists c, s = Some c /\ c <> "".
Proof.
  destruct s as [c|]; [|discriminate]. simpl. intros H. exists c.
  split; [reflexivity|]. intros ->. discriminate.
Qed.

Lemma try_block_missing_state env w :
  truthy (urlParams_get (search env) "state") = false ->
  start (finally (try_catch callback_try_block (fun error => Throw error))
           (do (WriteProcessing false))) env w
  = Settled (Thrown (Error missing_code_or_state)) (with_flag false w).
Proof.
  intros Hstate. unfold callback_try_block. simpl. rewrite Hstate.
  rewrite orb_true_r. reflexivity.
Qed.

(** Past the guards, a URL that lacks the code or the state makes the call
    fail at once, with the world as it was. *)
Lemma guarded_missing_parameter env w :
  has_window env = true -> isProcessingCallback w = false ->
  truthy (urlParams_get (search env) "code") = false
  \/ truthy (urlParams_get (search env) "state") = false ->
  run handleOidcCallback env w = (Thrown (Error missing_code_or_state), w)
  /\ start handleOidcCallback env w
     = Settled (Thrown (Error missing_code_or_state)) w.
Proof.
  intros Hwin Hflag Hmissing.
  assert (Hstart : start handleOidcCallback env w
                   = Settled (Thrown (Error missing_code_or_state)) w).
  { destruct (handleOidcCallback_enters env w Hwin Hflag) as (_ & -> & _).
    destruct Hmissing as [Hcode|Hstate].
    - rewrite (try_block_missing_code _ _ Hcode), (with_flag_restored _ Hflag).
      reflexivity.
    - rewrite (try_block_missing_state _ _ Hstate), (with_flag_restored _ Hflag).
      reflexivity. }
  split; [|exact Hstart]. rewrite run_start, Hstart. reflexivity.
Qed.

(** Past the guards and with a code and a state, the exchange with the
    identity provider is the first thing sent. *)
Lemma callback_exchanges_first env w code state :
  has_window env = true -> isProcessingCallback w = false ->
  urlParams_get (search env) "code" = Some code -> code <> "" ->
  urlParams_get (search env) "state" = Some state -> state <> "" ->
  exists rest,
    network (run handleOidcCallback env w).2
    = network w ++ IdpExchange :: rest.
Proof.
  intros Hwin Hflag Hcode Hc Hstate Hs.
  rewrite (handleOidcCallback_unfold env w code state) by assumption.
  rewrite run_signin_or_fallback.
  set (w1 := exchanged env (with_flag true w)).
  assert (Hafter : forall user,
    exists rest,
      network
        (match run (api_post "/auth/openid/verify-token"
                      (Params (requestParams user (Some code) (Some state))))
                   env w1 with
         | (Returned response, w2) =>
             (match response_data response with
              | Undefined => Thrown TypeError
              | Tokens access refresh =>
                  Returned {| cb_user := user; cb_access_token := access;
                              cb_refresh_token := refresh |}
              | Profile _ | Empty =>
                  Returned {| cb_user := user; cb_access_token := None;
                              cb_refresh_token := None |}
              end, with_flag false w2)
         | (Thrown e, w2) => (Thrown e, with_flag false w2)
         end).2 = network w ++ IdpExchange :: rest).
  { intros user.
    destruct (verification_follows env w1 user (Some code) (Some state))
      as [[rest Hnet] _].
    eexists. etransitivity; [exact Hnet|]. unfold w1.
    rewrite network_exchanged. simpl. rewrite <- app_assoc. reflexivity. }
  change (network (with_flag true w)) with (network w).
  destruct (idp env (network w)) as [tokenError|user].
  - destruct (includes (message tokenError) "Invalid token").
    + exact (Hafter (fallback_user code state)).
    + exists nil. simpl. unfold w1. rewrite network_exchanged. reflexivity.
  - exact (Hafter user).
Qed.

Lemma grown_network_differs (w w' : World) c rest :
  network w' = network w ++ c :: rest -> w' <> w.
Proof.
  intros Hnet ->. apply (f_equal length) in Hnet.
  rewrite length_app in Hnet. simpl in Hnet. lia.
Qed.

(** X11.  [isOidcEnabled] answers whether there is a [window], and it
    predicts the federated callback exactly: [handleOidcCallback] fails with
    'OIDC authentication is not enabled', having done nothing, if and only
    if [isOidcEnabled] returns [false]. *)
Theorem isOidcEnabled_predicts env w :
  run isOidcEnabled env w = (Returned (has_window env), w)
  /\ (has_window env = false
      <-> run handleOidcCallback env w = (Thrown (Error not_enabled), w)).
Proof.
  split; [reflexivity|]. split.
  - intros Hwin. rewrite run_start, (handleOidcCallback_no_window _ _ Hwin).
    reflexivity.
  - intros Hrun. destruct (has_window env) eqn:Hwin; [exfalso|reflexivity].
    destruct (isProcessingCallback w) eqn:Hflag.
    { rewrite run_start, (handleOidcCallback_busy _ _ Hwin Hflag) in Hrun.
      discriminate Hrun. }
    destruct (truthy (urlParams_get (search env) "code")) eqn:Hcode.
    2:{ destruct (guarded_missing_parameter env w Hwin Hflag (or_introl Hcode))
          as [Hmiss _]. rewrite Hmiss in Hrun. discriminate Hrun. }
    destruct (truthy (urlParams_get (search env) "state")) eqn:Hstate.
    2:{ destruct (guarded_missing_parameter env w Hwin Hflag (or_intror Hstate))
          as [Hmiss _]. rewrite Hmiss in Hrun. discriminate Hrun. }
    apply truthy_true in Hcode as (code & Hcode & Hc).
    apply truthy_true in Hstate as (state & Hstate & Hs).
    destruct (callback_exchanges_first env w code state) as [rest Hnet];
      try assumption.
    rewrite Hrun in Hnet. simpl in Hnet.
    exact (grown_network_differs _ _ _ _ Hnet eq_refl).
Qed.

Lemma callback_clears_flag env w :
  has_window env = true -> isProcessingCallback w = false ->
  isProcessingCallback (run handleOidcCallback env w).2 = false.
Proof.
  intros Hwin Hflag.
  destruct (handleOidcCallback_enters env w Hwin Hflag) as (-> & _).
  rewrite run_finally.
  destruct (run (try_catch callback_try_block _) env (with_flag true w))
    as [r w1]. reflexivity.
Qed.

Lemma callback_session_untouched env w :
  session_untouched w (run handleOidcCallback env w).2.
Proof. apply run_leaves_session, leaves_session_handleOidcCallback. Qed.

(** X12.  What a successful [handleOidcCallback] implies: the call ran in
    a browser, no other callback was being processed, the URL had a
    non-empty code and a non-empty state, one exchange with the identity
    provider was made and, right after it, the verification request for the
    very user object that is returned; the flag is cleared again and the
    session is as it was. *)
Theorem handleOidcCallback_success env w result w' :
  run handleOidcCallback env w = (Returned result, w') ->
  has_window env = true
  /\ isProcessingCallback w = false
  /\ isProcessingCallback w' = false
  /\ store w' = store w
  /\ exists code state rest,
       urlParams_get (search env) "code" = Some code /\ code <> ""
       /\ urlParams_get (search env) "state" = Some state /\ state <> ""
       /\ network w' =
            network w ++ IdpExchange
              :: verify_token (cb_user result) (Some code) (Some state)
              :: rest.
Proof.
  intros Hrun.
  destruct (has_window env) eqn:Hwin.
  2:{ rewrite run_start, (handleOidcCallback_no_window _ _ Hwin) in Hrun.
      discriminate Hrun. }
  destruct (isProcessingCallback w) eqn:Hflag.
  { rewrite run_start, (handleOidcCallback_busy _ _ Hwin Hflag) in Hrun.
    discriminate Hrun. }
  destruct (truthy (urlParams_get (search env) "code")) eqn:Hcode.
  2:{ destruct (guarded_missing_parameter env w Hwin Hflag (or_introl Hcode))
        as [Hmiss _]. rewrite Hmiss in Hrun. discriminate Hrun. }
  destruct (truthy (urlParams_get (search env) "state")) eqn:Hstate.
  2:{ destruct (guarded_missing_parameter env w Hwin Hflag (or_intror Hstate))
        as [Hmiss _]. rewrite Hmiss in Hrun. discriminate Hrun. }
  apply truthy_true in Hcode as (code & Hcode & Hc).
  apply truthy_true in Hstate as (state & Hstate & Hs).
  pose proof (callback_clears_flag env w Hwin Hflag) as Hcleared.
  destruct (callback_session_untouched env w) as (Hstore & _).
  rewrite Hrun in Hcleared, Hstore. simpl in Hcleared, Hstore.
  do 4 (split; [auto|]). exists code, state.
  rewrite (handleOidcCallback_unfold env w code state) in Hrun by assumption.
  rewrite run_signin_or_fallback in Hrun.
  change (network (with_flag true w)) with (network w) in Hrun.
  assert (Hafter : forall user,
    match run (api_post "/auth/openid/verify-token"
                 (Params (requestParams user (Some code) (Some state))))
              env (exchanged env (with_flag true w)) with
    | (Returned response, w2) =>
        (match response_data response with
         | Undefined => Thrown TypeError
         | Tokens access refresh =>
             Returned {| cb_user := user; cb_access_token := access;
                         cb_refresh_token := refresh |}
         | Profile _ | Empty =>
             Returned {| cb_user := user; cb_access_token := None;
                         cb_refresh_token := None |}
         end, with_flag false w2)
    | (Thrown e, w2) => (Thrown e, with_flag false w2)
    end = (Returned result, w') ->
    exists rest,
      network w' =
      network w ++ IdpExchange
        :: verify_token (cb_user result) (Some code) (Some state) :: rest).
  { intros user Heq.
    destruct (verification_follows env (exchanged env (with_flag true w))
                user (Some code) (Some state)) as [[rest Hnet] Huser].
    cbv zeta in Hnet, Huser. rewrite Heq in Hnet, Huser. simpl in Hnet, Huser.
    rewrite (Huser _ eq_refl). exists rest.
    rewrite Hnet, network_exchanged. simpl. rewrite <- app_assoc.
    reflexivity. }
  destruct (idp env (network w)) as [tokenError|user].
  - destruct (includes (message tokenError) "Invalid token").
    + destruct (Hafter (fallback_user code state) Hrun) as [rest Hnet]. eauto 8.
    + discriminate Hrun.
  - destruct (Hafter user Hrun) as [rest Hnet]. eauto 8.
Qed.

Lemma handleOidcCallback_success_witness :
  let env := Sample.browser Sample.u0 (inr Sample.external_user) in
  (run handleOidcCallback env Sample.fresh).1
    = Returned {| cb_user := Sample.external_user;
                  cb_access_token := Some "app-access";
                  cb_refresh_token := Some "app-refresh" |}
  /\ isProcessingCallback (run handleOidcCallback env Sample.fresh).2 = false
  /\ store (run handleOidcCallback env Sample.fresh).2 = initial_state.
Proof.
  intros env.
  destruct (handleOidcCallback_success env Sample.fresh _ _ eq_refl)
    as (_ & _ & Hflag & Hstore & _).
  split; [reflexivity|]. split; [exact Hflag | exact Hstore].
Defined.

(** * The toast store *)

Section ToastProperties.
Import Toast.

Lemma clear_pending_recorded w :
  timer_recorded w -> timer_recorded (clear_pending w).
Proof.
  intros Hw id. unfold clear_pending. simpl.
  destruct (timeoutId (state w)) as [old|] eqn:Hold; simpl; split.
  - intros (t & Ht & Hcb). apply lookup_delete_Some in Ht as [Hne Ht].
    assert (Some old = Some id) by (rewrite <- Hold; apply Hw; eauto).
    congruence.
  - discriminate.
  - intros (t & Ht & Hcb).
    assert (@None positive = Some id) by (rewrite <- Hold; apply Hw; eauto).
    congruence.
  - discriminate.
Qed.

Lemma clear_pending_timers w id :
  timers (clear_pending w) !! id =
  if decide (timeoutId (state w) = Some id) then None else timers w !! id.
Proof.
  unfold clear_pending. destruct (timeoutId (state w)) as [old|]; simpl.
  - rewrite lookup_delete. repeat case_decide; congruence.
  - destruct (decide (None = Some id)); [congruence | reflexivity].
Qed.

Lemma showToast_unfold msg sev ms pos w :
  showToast msg sev ms pos w =
  {| state := {| open := true; message := msg; severity := default info sev;
                 duration := default 5000%Z ms;
                 position := default bottom_right pos;
                 timeoutId := Some (fresh (dom (timers (clear_pending w)))) |};
     timers :=
       <[fresh (dom (timers (clear_pending w))) :=
           {| delay := default 5000%Z ms; callback := CloseToast |}]>
         (timers (clear_pending w)) |}.
Proof. reflexivity. Qed.

Lemma showToast_recorded msg sev ms pos w :
  timer_recorded w -> timer_recorded (showToast msg sev ms pos w).
Proof.
  intros Hw. apply clear_pending_recorded in Hw.
  rewrite showToast_unfold.
  set (w1 := clear_pending w) in *.
  set (new := fresh (dom (timers w1))).
  intros id. cbn [timers state timeoutId]. split.
  - intros (t & Ht & Hcb). apply lookup_insert_Some in Ht as [[<- _]|[Hne Ht]].
    + reflexivity.
    + assert (timeoutId (state w1) = Some id) as Hid by (apply Hw; eauto).
      discriminate Hid.
  - intros [= <-]. eexists. split; [apply lookup_insert_eq|reflexivity].
Qed.

Lemma hideToast_recorded w : timer_recorded w -> timer_recorded (hideToast w).
Proof.
  intros Hw id. unfold hideToast, close. simpl.
  destruct (timeoutId (state w)) as [old|] eqn:Hold; simpl; split;
    try discriminate.
  - intros (t & Ht & Hcb). apply lookup_delete_Some in Ht as [Hne Ht].
    assert (Some old = Some id) by (rewrite <- Hold; apply Hw; eauto).
    congruence.
  - intros (t & Ht & Hcb).
    assert (@None positive = Some id) by (rewrite <- Hold; apply Hw; eauto).
    congruence.
Qed.

Lemma fire_recorded id w : timer_recorded w -> timer_recorded (fire id w).
Proof.
  intros Hw other. unfold fire.
  destruct (timers w !! id) as [t|] eqn:Hid; [|apply Hw].
  destruct (callback t) eqn:Hcb; simpl.
  - assert (Hrec : timeoutId (state w) = Some id) by (apply Hw; eauto).
    split; [|discriminate].
    intros (t' & Ht' & Hcb'). apply lookup_delete_Some in Ht' as [Hne Ht'].
    assert (timeoutId (state w) = Some other) by (apply Hw; eauto).
    congruence.
  - split.
    + intros (t' & Ht' & Hcb'). apply lookup_delete_Some in Ht' as [Hne Ht'].
      apply Hw. eauto.
    + intros Hrec. apply Hw in Hrec as (t' & Ht' & Hcb').
      exists t'. split; [|exact Hcb'].
      apply lookup_delete_Some. split; [congruence | exact Ht'].
Qed.

Lemma start_recorded others : timer_recorded (start others).
Proof.
  intros id. unfold start. simpl. split; [|discriminate].
  intros (t & Ht & Hcb). rewrite lookup_fmap in Ht.
  destruct (others !! id); simpl in Ht; [|discriminate].
  injection Ht as <-. discriminate Hcb.
Qed.

(** X13.  The toast store never leaks a timer: on a page that starts with
    foreign timers only, after any sequence of [showToast], [hideToast] and
    timers firing, the pending timers that would close the toast are
    exactly the one recorded in [timeoutId], so there is at most one, and
    none when [timeoutId] is [null]. *)
Theorem toast_timer_recorded others (events : list Event) :
  timer_recorded (foldl (fun w e => step e w) (start others) events).
Proof.
  generalize (start_recorded others). generalize (start others).
  induction events as [|e events IH]; intros w Hw; simpl; [exact Hw|].
  apply IH. destruct e; simpl;
    auto using showToast_recorded, hideToast_recorded, fire_recorded.
Qed.

(** X14.  [showToast] opens the toast with the message given and with
    ['info'], 5000 ms and ['bottom-right'] for the arguments left out, and
    records the timer it has just set, which will close the toast after
    the duration.  The timer of the toast shown before, if any, is
    cancelled, and every other pending timer is left alone. *)
Theorem showToast_shows msg sev ms pos w :
  let w' := showToast msg sev ms pos w in
  open (state w') = true
  /\ message (state w') = msg
  /\ severity (state w') = default info sev
  /\ duration (state w') = default 5000%Z ms
  /\ position (state w') = default bottom_right pos
  /\ exists id,
       timeoutId (state w') = Some id
       /\ timers w' !! id
          = Some {| delay := default 5000%Z ms; callback := CloseToast |}
       /\ forall other, other <> id ->
            timers w' !! other =
            if decide (timeoutId (state w) = Some other) then None
            else timers w !! other.
Proof.
  cbv zeta. rewrite showToast_unfold. cbn [state timers open message severity
    duration position timeoutId].
  do 5 (split; [reflexivity|]). eexists. split; [reflexivity|].
  split; [apply lookup_insert_eq|].
  intros other Hother. rewrite lookup_insert_ne by congruence.
  apply clear_pending_timers.
Qed.

(** X15.  Once a toast is shown, the timer recorded for it is the only one
    that closes it: when that timer fires the toast is closed, with its
    message, severity, duration and position kept and no timer recorded any
    more; when any other timer fires, be it a foreign one or the identifier
    of a toast shown earlier, the toast stays exactly as it is. *)
Theorem toast_closed_by_its_timer msg sev ms pos w id :
  timer_recorded w ->
  let w' := showToast msg sev ms pos w in
  (timeoutId (state w') = Some id ->
     state (fire id w') =
       {| open := false; message := msg; severity := default info sev;
          duration := default 5000%Z ms;
          position := default bottom_right pos; timeoutId := None |}
     /\ timers (fire id w') !! id = None)
  /\ (timeoutId (state w') <> Some id -> state (fire id w') = state w').
Proof.
  intros Hw w'.
  pose proof (showToast_recorded msg sev ms pos w Hw) as Hw'. fold w' in Hw'.
  split.
  - intros Hid. apply Hw' in Hid as Hpending.
    destruct Hpending as (t & Ht & Hcb).
    unfold fire. rewrite Ht, Hcb. split; [|apply lookup_delete_eq].
    unfold w'. rewrite showToast_unfold. reflexivity.
  - intros Hid. unfold fire.
    destruct (timers w' !! id) as [t|] eqn:Ht; [|reflexivity].
    destruct (callback t) eqn:Hcb; [|reflexivity].
    exfalso. apply Hid, Hw'. eauto.
Qed.

Lemma toast_closed_by_its_timer_witness :
  let w := showToast "saved" (Some success) None None
             (start {[ 1%positive := 100%Z ]}) in
  let w' := showToast "failed" (Some error) (Some 3000%Z) None w in
  timeoutId (state w) = Some 2%positive
  /\ timeoutId (state w') = Some 2%positive
  /\ open (state (fire 1 w')) = true
  /\ state (fire 2 w') =
       {| open := false; message := "failed"; severity := error;
          duration := 3000; position := bottom_right; timeoutId := None |}.
Proof.
  intros w w'.
  assert (Hw : timer_recorded w)
    by (apply showToast_recorded, start_recorded).
  destruct (toast_closed_by_its_timer "failed" (Some error) (Some 3000%Z)
              None w 1 Hw) as [_ Hother].
  destruct (toast_closed_by_its_timer "failed" (Some error) (Some 3000%Z)
              None w 2 Hw) as [Hown _].
  split; [reflexivity|]. split; [reflexivity|]. split.
  - fold w' in Hother. rewrite Hother; [reflexivity | discriminate].
  - fold w' in Hown. apply Hown. reflexivity.
Defined.

(** X16.  [hideToast] closes the toast and cancels the recorded timer,
    keeping message, severity, duration and position and every other
    timer; a second [hideToast] changes nothing; and after it no pending
    timer touches the toast any more, whichever fires. *)
Theorem hideToast_hides w :
  timer_recorded w ->
  state (hideToast w) =
    {| open := false; message := message (state w);
       severity := severity (state w); duration := duration (state w);
       position := position (state w); timeoutId := None |}
  /\ (forall id,
        timers (hideToast w) !! id =
        if decide (timeoutId (state w) = Some id) then None
        else timers w !! id)
  /\ hideToast (hideToast w) = hideToast w
  /\ forall id, state (fire id (hideToast w)) = state (hideToast w).
Proof.
  intros Hw. pose proof (hideToast_recorded w Hw) as Hhidden.
  split; [|split; [|split]].
  - unfold hideToast. destruct (timeoutId (state w)); reflexivity.
  - intros id. unfold hideToast.
    destruct (timeoutId (state w)) as [old|]; simpl.
    + rewrite lookup_delete. repeat case_decide; congruence.
    + destruct (decide (None = Some id)); [congruence | reflexivity].
  - unfold hideToast at 1.
    replace (timeoutId (state (hideToast w))) with (@None positive)
      by (unfold hideToast; destruct (timeoutId (state w)); reflexivity).
    unfold hideToast. destruct (timeoutId (state w)); reflexivity.
  - intros id. unfold fire.
    destruct (timers (hideToast w) !! id) as [t|] eqn:Ht; [|reflexivity].
    destruct (callback t) eqn:Hcb; [|reflexivity].
    assert (timeoutId (state (hideToast w)) = Some id) as Hid
      by (apply Hhidden; eauto).
    unfold hideToast in Hid. destruct (timeoutId (state w)); discriminate Hid.
Qed.

Lemma hideToast_hides_witness :
  let w := showToast "saved" None None (Some top_center)
             (start {[ 7%positive := 100%Z ]}) in
  open (state (hideToast w)) = false
  /\ message (state (hideToast w)) = "saved"
  /\ position (state (hideToast w)) = top_center
  /\ timers (hideToast w) = timers (start {[ 7%positive := 100%Z ]})
  /\ hideToast (hideToast w) = hideToast w.
Proof.
  intros w.
  assert (Hw : timer_recorded w)
    by (apply showToast_recorded, start_recorded).
  destruct (hideToast_hides w Hw) as (Hstate & _ & Hidem & _).
  rewrite Hstate. do 3 (split; [reflexivity|]).
  split; [reflexivity | exact Hidem].
Defined.

End ToastProperties.

(** * Locale detection *)

Lemma split_dash_first_th language :
  I18n.split_dash_first language = "th"
  <-> language = "th" \/ exists region, language = "th-" +:+ region.
Proof.
  split.
  - destruct language as [|a [|b [|c rest]]]; simpl.
    + discriminate.
    + destruct (Ascii.eqb a I18n.dash); discriminate.
    + destruct (Ascii.eqb_spec a I18n.dash); [discriminate|].
      destruct (Ascii.eqb_spec b I18n.dash); [discriminate|].
      intros [= -> ->]. auto.
    + destruct (Ascii.eqb_spec a I18n.dash); [discriminate|].
      destruct (Ascii.eqb_spec b I18n.dash); [discriminate|].
      destruct (Ascii.eqb_spec c I18n.dash) as [->|]; [|discriminate].
      intros [= -> ->]. right. exists rest. reflexivity.
  - intros [->|[region ->]]; reflexivity.
Qed.

(** X17.  [detectLocale] always returns one of the supported locales.  It
    returns ['th'] exactly when [navigator] exists and its language is
    ['th'] or starts with ['th-']; the comparison is case-sensitive, and
    every other language, like a missing [navigator], gives ['en']. *)
Theorem detectLocale_supported navigator_language :
  I18n.detectLocale navigator_language ∈ I18n.locales
  /\ (I18n.detectLocale navigator_language = "th"
      <-> exists language,
            navigator_language = Some language
            /\ (language = "th" \/ exists region, language = "th-" +:+ region))
  /\ (I18n.detectLocale navigator_language <> "th"
      -> I18n.detectLocale navigator_language = "en").
Proof.
  assert (Hcases : forall x, I18n.locales_includes x = true
                             -> x = "en" \/ x = "th").
  { intros x. unfold I18n.locales_includes. simpl.
    destruct (String.eqb_spec x "en"); [auto|].
    destruct (String.eqb_spec x "th"); [auto|discriminate]. }
  unfold I18n.detectLocale.
  destruct navigator_language as [language|]; cbv zeta.
  2:{ split; [apply list_elem_of_here|]. split; [|auto].
      split; [discriminate | intros (? & ? & _); discriminate]. }
  destruct (I18n.locales_includes (I18n.split_dash_first language)) eqn:Hinc.
  - destruct (Hcases _ Hinc) as [Hen|Hth]; rewrite ?Hen, ?Hth.
    + split; [apply list_elem_of_here|]. split; [|auto].
      split; [discriminate|]. intros (l & [= <-] & Hl).
      apply split_dash_first_th in Hl. congruence.
    + split; [apply list_elem_of_further, list_elem_of_here|].
      split; [|congruence]. split; [|reflexivity].
      intros _. exists language. split; [reflexivity|].
      apply split_dash_first_th, Hth.
  - split; [apply list_elem_of_here|]. split; [|auto].
    split; [discriminate|]. intros (l & [= <-] & Hl).
    apply split_dash_first_th in Hl. rewrite Hl in Hinc. discriminate Hinc.
Qed.

Example detectLocale_examples :
  I18n.detectLocale (Some "th-TH") = "th"
  /\ I18n.detectLocale (Some "en-US") = "en"
  /\ I18n.detectLocale (Some "TH") = "en"
  /\ I18n.detectLocale (Some "thai") = "en"
  /\ I18n.detectLocale (Some "fr-FR") = "en"
  /\ I18n.detectLocale None = "en".
Proof. repeat split. Qed.

(** * The lazily created OIDC user manager *)

Section OidcProperties.
Import Oidc.

Variable host : Host.
Variable provider : nat -> JsError + Metadata.

Lemma getOidcConfig_keeps st :
  cachedMetadata (getOidcConfig host st).2 = cachedMetadata st
  /\ userManager (getOidcConfig host st).2 = userManager st
  /\ fetches (getOidcConfig host st).2 = fetches st.
Proof. unfold getOidcConfig. destruct (oidcConfig st); repeat split. Qed.

Lemma getOidcConfig_waiting st :
  waiting (getOidcConfig host st).2 = waiting st.
Proof. unfold getOidcConfig. destruct (oidcConfig st); reflexivity. Qed.

Lemma getUserManager_keeps st :
  cachedMetadata (getUserManager host st).2 = cachedMetadata st
  /\ fetches (getUserManager host st).2 = fetches st
  /\ waiting (getUserManager host st).2 = waiting st.
Proof.
  unfold getUserManager. destruct (origin host); [|auto]. simpl.
  destruct (userManager st); [auto|].
  destruct (getOidcConfig_keeps st) as (Hc & _ & Hf).
  pose proof (getOidcConfig_waiting st) as Hw.
  destruct (getOidcConfig host st) as [config st1]. simpl in *. auto.
Qed.

Lemma getUserManager_caches st :
  manager_caches st -> manager_caches (getUserManager host st).2.
Proof.
  unfold manager_caches, getUserManager. intros Hst.
  destruct (origin host); [|exact Hst]. simpl.
  destruct (userManager st) as [manager|] eqn:Hm; simpl; [rewrite Hm; exact Hst|].
  destruct Hst as [Hcache _].
  destruct (getOidcConfig_keeps st) as (Hc & _ & _).
  destruct (getOidcConfig host st) as [config st1]. simpl in *.
  destruct (cachedMetadata st1); [congruence | reflexivity].
Qed.

(** A call through the caching closure around the library's method
    returns what is cached, or awaits a fetch. *)
Lemma call_caching st :
  call_getMetadata (CacheAfter Library) st =
  match cachedMetadata st with
  | Some metadata => Returns (Some metadata)
  | None => Fetches true
  end.
Proof. simpl. destruct (cachedMetadata st); reflexivity. Qed.

(** The beginning of a call, for the manager that [getUserManager]
    creates. *)
Lemma step_AskMetadata st :
  manager_caches st ->
  step host provider st AskMetadata =
  match userManager st, cachedMetadata st with
  | Some _, None =>
      {| cachedMetadata := None; oidcConfig := oidcConfig st;
         userManager := userManager st; fetches := S (fetches st);
         waiting := <[fetches st := true]> (waiting st) |}
  | _, _ => st
  end.
Proof.
  unfold manager_caches. intros Hm. simpl.
  destruct (userManager st) as [manager|]; [|reflexivity].
  rewrite Hm, call_caching.
  destruct (cachedMetadata st) eqn:Hc; reflexivity.
Qed.

Lemma step_caches st e :
  manager_caches st -> cached_from_fetch provider st ->
  manager_caches (step host provider st e).
Proof.
  intros Hst [Hwait _]. destruct e as [| |n].
  - apply getUserManager_caches, Hst.
  - rewrite (step_AskMetadata st Hst). unfold manager_caches in *.
    destruct (userManager st) as [manager|] eqn:Hm;
      [destruct (cachedMetadata st) eqn:Hc|]; simpl; rewrite ?Hm; exact Hst.
  - simpl. destruct (waiting st !! n) as [caching|] eqn:Hn; [|exact Hst].
    unfold manager_caches in *. simpl.
    destruct (userManager st) as [manager|]; [exact Hst|].
    (* without a manager no call was ever made *)
    destruct Hst as [Hc Hf]. destruct (Hwait _ _ Hn) as [Hlt _]. lia.
Qed.

Lemma step_cached_from_fetch st e :
  manager_caches st -> cached_from_fetch provider st ->
  cached_from_fetch provider (step host provider st e).
Proof.
  intros Hm [Hwait Hcache]. destruct e as [| |n].
  - simpl. unfold cached_from_fetch.
    destruct (getUserManager_keeps st) as (-> & -> & ->). auto.
  - rewrite (step_AskMetadata st Hm).
    destruct (userManager st) as [manager|]; [|split; assumption].
    destruct (cachedMetadata st) as [metadata|] eqn:Hc;
      [split; [assumption | rewrite Hc; assumption]|].
    split; simpl.
    + intros k caching Hk. apply lookup_insert_Some in Hk as [[<- <-]|[_ Hk]].
      * split; [lia | reflexivity].
      * destruct (Hwait _ _ Hk). split; [lia | assumption].
    + intros k Hk Hnone. apply lookup_insert_None in Hnone as [Hnone Hne].
      apply Hcache; [lia | assumption].
  - simpl. destruct (waiting st !! n) as [caching|] eqn:Hn; [|split; assumption].
    destruct (Hwait _ _ Hn) as [Hlt ->]. split; simpl.
    + intros k caching Hk. apply lookup_delete_Some in Hk as [_ Hk]. eauto.
    + destruct (provider n) as [e|metadata] eqn:Hp.
      * destruct (cachedMetadata st) as [cached|].
        -- destruct Hcache as (k & Hk & Hnone & Hfetched). exists k.
           split; [assumption|]. split; [|assumption].
           apply lookup_delete_None. auto.
        -- intros k Hk Hnone. apply lookup_delete_None in Hnone as [<-|Hnone];
             eauto.
      * exists n. split; [assumption|]. split; [apply lookup_delete_eq|].
        assumption.
Qed.

(** Once something is cached it stays so, and nothing is fetched any
    more. *)
Lemma step_cached st e :
  manager_caches st -> is_Some (cachedMetadata st) ->
  is_Some (cachedMetadata (step host provider st e))
  /\ fetches (step host provider st e) = fetches st.
Proof.
  intros Hm [metadata Hc]. destruct e as [| |n].
  - simpl. destruct (getUserManager_keeps st) as (-> & -> & _).
    rewrite Hc. eauto.
  - rewrite (step_AskMetadata st Hm), Hc.
    destruct (userManager st); rewrite Hc; eauto.
  - simpl. destruct (waiting st !! n) as [caching|]; [|rewrite Hc; eauto].
    simpl. split; [|reflexivity].
    destruct (provider n); [rewrite Hc; eauto|].
    destruct caching; [eauto | rewrite Hc; eauto].
Qed.

Lemma steps_cached later st :
  manager_caches st -> cached_from_fetch provider st ->
  is_Some (cachedMetadata st) ->
  fetches (foldl (step host provider) st later) = fetches st
  /\ is_Some (cachedMetadata (foldl (step host provider) st later)).
Proof.
  revert st. induction later as [|e later IH]; intros st Hm Hg Hc; simpl;
    [auto|].
  destruct (step_cached st e Hm Hc) as [Hc' Hf'].
  destruct (IH _ (step_caches st e Hm Hg) (step_cached_from_fetch st e Hm Hg)
              Hc') as [Hf Hsome].
  split; [congruence | exact Hsome].
Qed.

(** Calls that do not overlap. *)
Lemma step_fetched_once st e :
  manager_caches st -> cached_from_fetch provider st ->
  match e with AskMetadata => waiting st = ∅ | _ => True end ->
  fetched_once provider st ->
  fetched_once provider (step host provider st e).
Proof.
  intros Hm [Hcaching _] Hquiet Hst. destruct e as [| |n].
  - simpl. unfold fetched_once.
    destruct (getUserManager_keeps st) as (-> & -> & ->). exact Hst.
  - rewrite (step_AskMetadata st Hm).
    destruct (userManager st) as [manager|]; [|exact Hst].
    destruct (cachedMetadata st) as [metadata|] eqn:Hc; [exact Hst|].
    destruct Hst as [Hwait Hcache]. rewrite Hc in Hcache.
    split; simpl.
    + intros k caching Hk. apply lookup_insert_Some in Hk as [[<- <-]|[_ Hk]].
      * auto.
      * rewrite Hquiet in Hk. discriminate Hk.
    + intros k Hk Hnone. apply lookup_insert_None in Hnone as [Hnone Hne].
      apply Hcache; [lia | assumption].
  - simpl. destruct (waiting st !! n) as [caching|] eqn:Hn; [|exact Hst].
    destruct Hst as [Hwait Hcache].
    destruct (Hwait _ _ Hn) as [Hlast Hc].
    destruct (Hcaching _ _ Hn) as [_ ->]. rewrite Hc in Hcache.
    assert (Hothers : forall k, k <> n -> waiting st !! k = None).
    { intros k Hne. destruct (waiting st !! k) as [c|] eqn:Hk; [|reflexivity].
      destruct (Hwait _ _ Hk) as [Hk' _]. lia. }
    split; simpl.
    + intros k caching Hk. apply lookup_delete_Some in Hk as [Hne Hk].
      rewrite (Hothers k) in Hk by congruence. discriminate Hk.
    + destruct (provider n) as [e|metadata] eqn:Hp.
      * rewrite Hc. intros k Hk _.
        destruct (decide (k = n)) as [->|Hne]; [eauto|].
        apply Hcache; [assumption | apply Hothers, Hne].
      * exists n. split; [assumption|]. split; [assumption|].
        intros k Hk. apply Hcache; [lia | apply Hothers; lia].
Qed.

Lemma steps_fetched_once events st :
  manager_caches st -> cached_from_fetch provider st ->
  one_at_a_time host provider st events = true ->
  fetched_once provider st ->
  fetched_once provider (foldl (step host provider) st events).
Proof.
  revert st. induction events as [|e events IH]; intros st Hm Hg Hone Hst;
    simpl in *; [exact Hst|].
  apply andb_true_iff in Hone as [Hquiet Hone].
  apply IH; auto using step_caches, step_cached_from_fetch.
  apply step_fetched_once; auto.
  destruct e; auto. apply bool_decide_eq_true in Hquiet. exact Hquiet.
Qed.

Lemma steps_invariant events st :
  manager_caches st -> cached_from_fetch provider st ->
  manager_caches (foldl (step host provider) st events)
  /\ cached_from_fetch provider (foldl (step host provider) st events).
Proof.
  revert st. induction events as [|e events IH]; intros st Hm Hg; simpl;
    [auto|].
  apply IH; auto using step_caches, step_cached_from_fetch.
Qed.

Lemma loaded_invariant :
  manager_caches loaded /\ cached_from_fetch provider loaded
  /\ fetched_once provider loaded.
Proof.
  split; [split; reflexivity|]. split; split; simpl.
  - intros n caching Hn. rewrite lookup_empty in Hn. discriminate Hn.
  - intros k Hk. lia.
  - intros n caching Hn. rewrite lookup_empty in Hn. discriminate Hn.
  - intros k Hk. lia.
Qed.

(** X18.  What the metadata cache of the module guarantees, whatever
    requests for the manager, calls of [getMetadata] and answers to their
    fetches the module has seen since it was loaded, in whatever order.
    The manager's [getMetadata] is always the caching closure around the
    library's method; the closure that only returns the cache is never
    installed.  What is cached is the result of a fetch that was answered,
    and nothing is cached only as long as every fetch answered has failed.
    Once something is cached, no call that begins afterwards fetches: the
    number of fetches stays what it is and the cache stays filled.  As
    long as nothing is cached, every call of the manager's [getMetadata]
    fetches, also when it begins while another call still awaits its
    fetch.  When no call begins while another is waiting, the metadata is
    fetched until a fetch succeeds and never again: what is cached is the
    result of the last fetch made, and all the fetches before it have
    failed. *)
Theorem metadata_fetched_once (events later : list Event) :
  let st := foldl (step host provider) loaded events in
  manager_caches st
  /\ cached_from_fetch provider st
  /\ (is_Some (cachedMetadata st) ->
      fetches (foldl (step host provider) st later) = fetches st
      /\ is_Some (cachedMetadata (foldl (step host provider) st later)))
  /\ (is_Some (userManager st) -> cachedMetadata st = None ->
      fetches (step host provider st AskMetadata) = S (fetches st))
  /\ (one_at_a_time host provider loaded events = true ->
      fetched_once provider st).
Proof.
  cbv zeta. destruct loaded_invariant as (Hm0 & Hg0 & Hf0).
  destruct (steps_invariant events loaded Hm0 Hg0) as [Hm Hg].
  split; [exact Hm|]. split; [exact Hg|]. split; [|split].
  - intros Hc. apply steps_cached; assumption.
  - intros [manager Hmanager] Hc. rewrite (step_AskMetadata _ Hm).
    rewrite Hmanager, Hc. reflexivity.
  - intros Hone. apply steps_fetched_once; assumption.
Qed.

(** X19.  [getUserManager] returns a manager exactly where there is a
    [window], creates it on the first call only, and makes no fetch: asking
    again gives the same manager and leaves the module as it is.  The
    manager of a freshly loaded module has the redirect URIs of the
    window's origin, keeps its users in [localStorage], and has a metadata
    URL exactly when an authority is configured; the fallbacks for a
    missing [window] never reach it. *)
Theorem getUserManager_once st :
  let first := getUserManager host st in
  (first.1 = None <-> origin host = None)
  /\ getUserManager host first.2 = first
  /\ fetches first.2 = fetches st
  /\ (st = loaded ->
      forall manager o,
        first.1 = Some manager -> origin host = Some o ->
        redirect_uri (settings manager) = o +:+ "/auth/callback"
        /\ silent_redirect_uri (settings manager) = o +:+ "/silent-renew.html"
        /\ post_logout_redirect_uri (settings manager) = o
        /\ userStore (settings manager) = Some LocalStorageStore
        /\ debug_listeners manager = negb (PROD host)
        /\ (metadataUrl (settings manager) = None
            <-> truthy (VITE_OIDC_AUTHORITY host) = false)).
Proof.
  cbv zeta. unfold getUserManager.
  destruct (origin host) as [o|] eqn:Ho; simpl.
  2:{ split; [tauto|]. do 2 (split; [reflexivity|]).
      intros _ m o' Hm. discriminate Hm. }
  destruct (userManager st) as [manager|] eqn:Hm; simpl.
  - rewrite Hm. split; [split; discriminate|]. do 2 (split; [reflexivity|]).
    intros ->. discriminate Hm.
  - destruct (getOidcConfig_keeps st) as (_ & _ & Hf).
    destruct (getOidcConfig host st) as [config st1] eqn:Hconfig.
    simpl in *. split; [split; discriminate|]. split; [reflexivity|].
    split; [exact Hf|].
    intros -> m o' [= <-] [= <-]. simpl in Hconfig.
    injection Hconfig as <- _. simpl.
    unfold config_getOrigin, getOrigin. rewrite Ho.
    do 5 (split; [reflexivity|]).
    destruct (VITE_OIDC_AUTHORITY host) as [a|]; simpl; [|tauto].
    destruct (String.eqb a "") eqn:Ha; simpl; [tauto|].
    rewrite Ha. simpl. split; intros H; discriminate H.
Qed.

End OidcProperties.

(** * The pages *)

Section PageProperties.
Import Pages.

Lemma setTokens_store accessToken refreshToken env w :
  run (setTokens accessToken refreshToken) env w =
  (Returned tt,
   persist env (with_store (merge (store w) [isAuthenticated_is true]) w)).
Proof. reflexivity. Qed.


(** The password login and the federated callback treat the same profile
    differently: the backend serves a user with [webAllowed: false]. *)
Example callback_accepts_guest :
  let env := Sample.browser Sample.guest (inr Sample.external_user) in
  let app := {| auth := Sample.fresh; toast := Toast.start ∅;
                navigations := [] |} in
  (run (login "guest" "xxxx") env Sample.fresh).1 = Returned false
  /\ isAuthenticated (store (auth (processCallback env mounted app).2)) = true
  /\ user (store (auth (processCallback env mounted app).2))
     = present Sample.guest.
Proof. repeat split. Qed.

(** X21.  [checkAuth] of [ProtectedRoute] never asks the server anything
    and never changes the session.  For a session that the store holds as
    authenticated it never redirects either: the [verifyAuth] it calls is
    not a member of the store, so the check is rejected with a type error.
    A session that is neither authenticated nor loading is sent to
    ["/login"], with the current location remembered and the entry
    replaced; a loading one is left alone.  The guarded routes are rendered
    exactly for a session held as authenticated and not loading. *)
Theorem protected_route_check env location app :
  let out := checkAuth env location app in
  auth out.2 = auth app
  /\ (if isAuthenticated (store (auth app))
      then out = (Thrown (Error "verifyAuth is not a function"), app)
      else if isLoading (store (auth app))
           then out = (Returned tt, app)
           else out.1 = Returned tt
                /\ navigations out.2 =
                     navigations app
                     ++ [{| to := "/login"; from := Some location;
                            replace := true |}])
  /\ (ProtectedRoute app = Outlet
      <-> isAuthenticated (store (auth app)) = true
          /\ isLoading (store (auth app)) = false).
Proof.
  cbv zeta. unfold checkAuth, ProtectedRoute. simpl.
  destruct (isAuthenticated (store (auth app))),
           (isLoading (store (auth app))); simpl;
    repeat split; try tauto; try discriminate; intros [? ?]; discriminate.
Qed.

(** X22.  Below its heading [Home] shows at most one block: the welcome
    with the user's name exactly when the session is authenticated and has
    a user, the invitation to log in exactly when the session is not
    authenticated.  Whenever the session invariant holds one of the two is
    shown.  Nothing is shown for an authenticated session without user,
    which is what [setTokens] leaves when no user was loaded before. *)
Theorem Home_blocks s :
  (forall name,
     Welcome name ∈ Home s
     <-> isAuthenticated s = true
         /\ exists u, user s = present u /\ username u = name)
  /\ (PleaseLogIn ∈ Home s <-> isAuthenticated s = false)
  /\ (Home s = []
      <-> isAuthenticated s = true /\ (user s = null \/ user s = undefined))
  /\ length (Home s) <= 1
  /\ (session_invariant s -> length (Home s) = 1)
  /\ (forall env w accessToken refreshToken,
        s = store (run (setTokens accessToken refreshToken) env w).2 ->
        user (store w) = null -> Home s = []).
Proof.
  assert (Hshape :
    Home s = match isAuthenticated s, user s with
             | true, present u => [Welcome (username u)]
             | true, _ => []
             | false, _ => [PleaseLogIn]
             end).
  { unfold Home. destruct (isAuthenticated s), (user s); reflexivity. }
  split; [|split; [|split; [|split; [|split]]]].
  - intros name. rewrite Hshape.
    destruct (isAuthenticated s), (user s) as [| |u]; split;
      try (intros Hin; inversion Hin; fail);
      try (intros (H & u' & Hu & Hname); discriminate);
      try (intros Hin; apply list_elem_of_singleton in Hin; discriminate Hin).
    + intros Hin. apply list_elem_of_singleton in Hin. injection Hin as ->. eauto.
    + intros (_ & u' & [= <-] & <-). apply list_elem_of_here.
  - rewrite Hshape. destruct (isAuthenticated s), (user s) as [| |u]; split;
      try discriminate; try (intros _; apply list_elem_of_here);
      try reflexivity; intros Hin; try (inversion Hin; fail);
      apply list_elem_of_singleton in Hin; discriminate Hin.
  - rewrite Hshape. destruct (isAuthenticated s), (user s) as [| |u]; split;
      try discriminate; try tauto; intros [H1 [H2|H2]]; discriminate.
  - rewrite Hshape. destruct (isAuthenticated s), (user s); simpl; lia.
  - intros Hinv. rewrite Hshape.
    destruct (isAuthenticated s) eqn:Ha; [|destruct (user s); reflexivity].
    destruct (Hinv Ha) as (u & -> & _). reflexivity.
  - intros env w a r -> Hnone. rewrite Hshape, setTokens_store. simpl.
    rewrite store_persist. simpl. rewrite Hnone. reflexivity.
Qed.

End PageProperties.

(** The provider is unreachable twice: the third call of [getMetadata]
    gets the metadata, the fourth is served from the cache. *)
Example metadata_after_failures :
  let ask := foldl (Oidc.step OidcSample.production OidcSample.flaky)
               Oidc.loaded in
  let twice := [Oidc.AskManager; Oidc.AskMetadata; Oidc.Answer 0;
                Oidc.AskMetadata; Oidc.Answer 1] in
  let more := [Oidc.AskMetadata; Oidc.Answer 2; Oidc.AskMetadata;
               Oidc.AskManager] in
  Oidc.cachedMetadata (ask twice) = None
  /\ Oidc.cachedMetadata (ask (twice ++ more)) = Some OidcSample.discovery
  /\ Oidc.fetches (ask (twice ++ more)) = 3
  /\ Oidc.one_at_a_time OidcSample.production OidcSample.flaky Oidc.loaded
       (twice ++ more) = true.
Proof. vm_compute. repeat split. Qed.

(** Two calls that begin before the first fetch is answered both fetch,
    although the first fetch succeeds; once it has been answered nothing
    is fetched any more, whatever comes later. *)
Lemma metadata_fetched_once_witness :
  let provider := fun _ : nat => inr OidcSample.discovery in
  let ask := foldl (Oidc.step OidcSample.production provider) in
  let st :=
    ask Oidc.loaded
      [Oidc.AskManager; Oidc.AskMetadata; Oidc.AskMetadata; Oidc.Answer 0] in
  Oidc.fetches st = 2
  /\ Oidc.cachedMetadata st = Some OidcSample.discovery
  /\ Oidc.fetches (ask st [Oidc.AskMetadata; Oidc.Answer 1; Oidc.AskMetadata])
     = 2.
Proof.
  intros provider ask st.
  assert (Hcached : Oidc.cachedMetadata st = Some OidcSample.discovery)
    by reflexivity.
  destruct (metadata_fetched_once OidcSample.production provider
              [Oidc.AskManager; Oidc.AskMetadata; Oidc.AskMetadata;
               Oidc.Answer 0]
              [Oidc.AskMetadata; Oidc.Answer 1; Oidc.AskMetadata])
    as (_ & _ & Hlater & _).
  destruct (Hlater (ex_intro _ _ Hcached)) as [Hsame _].
  split; [reflexivity|]. split; [exact Hcached|].
  etransitivity; [exact Hsame | reflexivity].
Defined.

Example production_manager :
  Oidc.settings
    <$> (Oidc.getUserManager OidcSample.production Oidc.loaded).1
  = Some
      {| Oidc.authority := "https://idp.example.org";
         Oidc.client_id := "link-client";
         Oidc.redirect_uri := "https://link.example.org/auth/callback";
         Oidc.post_logout_redirect_uri := "https://link.example.org";
         Oidc.response_type := "code";
         Oidc.scope := "openid profile email offline_access";
         Oidc.automaticSilentRenew := true;
         Oidc.silent_redirect_uri := "https://link.example.org/silent-renew.html";
         Oidc.userStore := Some Oidc.LocalStorageStore;
         Oidc.metadataUrl :=
           Some "https://idp.example.org/.well-known/openid-configuration";
         Oidc.loadUserInfo := false;
         Oidc.monitorSession := false;
         Oidc.validateSubOnSilentRenew := false;
         Oidc.filterProtocolClaims := false;
         Oidc.response_mode := "query" |}.
Proof. reflexivity. Qed.
